(** * Taxonomy enrichment: [fetch_ncbi_taxID_to_taxinfo.py]

    A shallow embedding of the three functions of the script
    ([fetch_taxonomy_data], [process_taxids], [main]) together with the
    part of the Python and pandas semantics they rely on, followed by the
    properties of the retry loop, of the lineage extraction and of the
    table merge.  Line numbers are those of the script. *)

From stdpp Require Import base list sets strings.
From Stdlib Require Import ZArith Lia.

Local Open Scope string_scope.
Local Open Scope list_scope.
Local Open Scope Z_scope.

Set Warnings "-register-all,-clear-no-such-hyp".

(** ** Python values

    The values that flow through the script: what [json.loads] produces
    (None, booleans, integers, strings, lists, dicts) and what pandas
    stores in a cell.  [PNaN] is the float [nan] pandas uses for a missing
    cell; other floats are not tracked.  A dict keeps its insertion order,
    as in Python, so it is an association list with distinct keys kept by
    [dict_set]. *)

Inductive pyval : Type :=
  | PNone
  | PBool (b : bool)
  | PInt (n : Z)
  | PNaN
  | PStr (s : string)
  | PList (l : list pyval)
  | PDict (d : list (string * pyval)).

Abbreviation pydict := (list (string * pyval)).

Fixpoint pyval_eqb (a b : pyval) {struct a} : bool :=
  match a, b with
  | PNone, PNone => true
  | PBool x, PBool y => Bool.eqb x y
  | PInt x, PInt y => Z.eqb x y
  | PNaN, PNaN => true
  | PStr x, PStr y => String.eqb x y
  | PList l, PList l' =>
      (fix go (l l' : list pyval) : bool :=
         match l, l' with
         | [], [] => true
         | x :: l, y :: l' => pyval_eqb x y && go l l'
         | _, _ => false
         end) l l'
  | PDict d, PDict d' =>
      (fix go (d d' : pydict) : bool :=
         match d, d' with
         | [], [] => true
         | (k, x) :: d, (k', y) :: d' => String.eqb k k' && pyval_eqb x y && go d d'
         | _, _ => false
         end) d d'
  | _, _ => false
  end.

Section pyval_induction.
Variable P : pyval → Prop.
Hypothesis HNone : P PNone.
Hypothesis HBool : ∀ b, P (PBool b).
Hypothesis HInt : ∀ n, P (PInt n).
Hypothesis HNaN : P PNaN.
Hypothesis HStr : ∀ s, P (PStr s).
Hypothesis HList : ∀ l, Forall P l → P (PList l).
Hypothesis HDict : ∀ d, Forall (λ kv, P kv.2) d → P (PDict d).

Fixpoint pyval_nested_ind (v : pyval) : P v :=
  match v with
  | PNone => HNone
  | PBool b => HBool b
  | PInt n => HInt n
  | PNaN => HNaN
  | PStr s => HStr s
  | PList l =>
      HList l ((fix go (l : list pyval) : Forall P l :=
                  match l with
                  | [] => Forall_nil_2 P
                  | x :: l => Forall_cons_2 P x l (pyval_nested_ind x) (go l)
                  end) l)
  | PDict d =>
      HDict d ((fix go (d : pydict) : Forall (λ kv, P kv.2) d :=
                  match d with
                  | [] => Forall_nil_2 _
                  | kv :: d => Forall_cons_2 _ kv d (pyval_nested_ind kv.2) (go d)
                  end) d)
  end.
End pyval_induction.

Lemma pyval_eqb_eq (a b : pyval) : pyval_eqb a b = true ↔ a = b.
Proof.
  revert b. induction a as [| x | x | | x | l IH | d IH] using pyval_nested_ind;
    intros [| y | y | | y | l' | d']; simpl; try (split; [discriminate | congruence]);
    try tauto.
  - rewrite Bool.eqb_true_iff. split; congruence.
  - rewrite Z.eqb_eq. split; congruence.
  - rewrite String.eqb_eq. split; congruence.
  - revert l'. induction IH as [| x l Hx _ IHl]; intros [| y l']; simpl;
      try (split; [discriminate | congruence]); try tauto.
    rewrite andb_true_iff, Hx, (IHl l'). split.
    + intros [-> H]. congruence.
    + intros H. injection H as -> ->. auto.
  - revert d'. induction IH as [| [k x] d Hx _ IHd]; intros [| [k' y] d']; simpl;
      try (split; [discriminate | congruence]); try tauto.
    rewrite !andb_true_iff, String.eqb_eq. simpl in Hx. rewrite Hx, (IHd d'). split.
    + intros [[-> ->] H]. congruence.
    + intros H. injection H as -> -> ->. auto.
Qed.

#[global] Instance pyval_eq_dec : EqDecision pyval.
Proof.
  intros a b. destruct (pyval_eqb a b) eqn:E.
  - left. apply pyval_eqb_eq, E.
  - right. intros H. apply pyval_eqb_eq in H. congruence.
Defined.

(** Truth value of an object in a condition ([if taxon:]). *)
Definition truthy (v : pyval) : bool :=
  match v with
  | PNone => false
  | PBool b => b
  | PInt n => negb (Z.eqb n 0)
  | PNaN => true
  | PStr s => negb (String.eqb s "")
  | PList l => match l with [] => false | _ => true end
  | PDict d => match d with [] => false | _ => true end
  end.

(** ** Dicts *)

Section dict.
Context {K V : Type} `{EqDecision K}.

Fixpoint dict_get (d : list (K * V)) (k : K) : option V :=
  match d with
  | [] => None
  | (k', v) :: d => if decide (k' = k) then Some v else dict_get d k
  end.

(** [d[k] = v]: an existing key keeps its position, a new key is
    appended. *)
Fixpoint dict_set (d : list (K * V)) (k : K) (v : V) : list (K * V) :=
  match d with
  | [] => [(k, v)]
  | (k', v') :: d => if decide (k' = k) then (k, v) :: d else (k', v') :: dict_set d k v
  end.

Definition dict_keys (d : list (K * V)) : list K := d.*1.
End dict.

(** ** Exceptions and results *)

Inductive exn : Type :=
  | CalledProcessError   (* subprocess.run(check=True): nonzero exit status *)
  | FileNotFoundError    (* subprocess.run: the executable cannot be started *)
  | JSONDecodeError
  | AttributeError
  | TypeError
  | KeyError
  | UnboundLocalError
  | ValueError           (* time.sleep: a negative pause *).

#[global] Instance exn_eq_dec : EqDecision exn.
Proof. solve_decision. Defined.

Inductive result (A : Type) : Type :=
  | Returned (a : A)
  | Raised (e : exn).
Arguments Returned {A} a.
Arguments Raised {A} e.

Definition result_bind {A B} (r : result A) (k : A → result B) : result B :=
  match r with
  | Returned a => k a
  | Raised e => Raised e
  end.

Notation "'try!' x := c 'in' k" := (result_bind c (λ x, k))
  (at level 10, x name, c at level 100, k at level 200).

(** [obj.get(key, default)]: only a dict has the method. *)
Definition py_get (obj : pyval) (key : string) (default : pyval) : result pyval :=
  match obj with
  | PDict d => Returned (from_option id default (dict_get d key))
  | _ => Raised AttributeError
  end.

(** [obj[key]] with a string key. *)
Definition py_getitem (obj : pyval) (key : string) : result pyval :=
  match obj with
  | PDict d => match dict_get d key with
               | Some v => Returned v
               | None => Raised KeyError
               end
  | _ => Raised TypeError
  end.

(** ** [fetch_taxonomy_data] *)

Definition taxonomic_ranks : list string :=
  ["superkingdom"; "kingdom"; "phylum"; "class"; "order"; "family"; "genus"; "species"].

(** One iteration of the loop over the ranks (lines 76-88). *)
Definition rank_step (classification : pyval) (taxonomy_info : pydict) (rank : string)
    : result pydict :=
  try! taxon := py_get classification rank PNone in
  if truthy taxon then
    try! i := py_getitem taxon "id" in
    let taxonomy_info := dict_set taxonomy_info (rank +:+ "_id") i in
    try! n := py_getitem taxon "name" in
    Returned (dict_set taxonomy_info (rank +:+ "_name") n)
  else
    let taxonomy_info := dict_set taxonomy_info (rank +:+ "_id") (PStr "None") in
    Returned (dict_set taxonomy_info (rank +:+ "_name") (PStr "None")).

Fixpoint for_ranks (classification : pyval) (taxonomy_info : pydict) (ranks : list string)
    : result pydict :=
  match ranks with
  | [] => Returned taxonomy_info
  | rank :: ranks =>
      try! taxonomy_info := rank_step classification taxonomy_info rank in
      for_ranks classification taxonomy_info ranks
  end.

(** Lines 68-90, once the response has been decoded. *)
Definition extract_lineage (taxonomy_json : pyval) : result pydict :=
  try! taxonomy := py_get taxonomy_json "taxonomy" (PList []) in
  try! classification := py_get taxonomy "classification" (PDict []) in
  for_ranks classification [] taxonomic_ranks.

(** What [subprocess.run] does: it raises, or it completes with an exit
    status and the captured standard output. *)
Inductive run_outcome : Type :=
  | RunRaises (e : exn)
  | RunCompleted (returncode : Z) (stdout : string).

(** The three [except] clauses, tried in order.  The name [json] is local
    to the function (it is imported inside the [try] block, line 63), so
    the second clause, which evaluates [json.JSONDecodeError], itself
    raises [UnboundLocalError] when the exception was raised before the
    import ran. *)
Definition handlers (json_bound : bool) (e : exn) : result (option pydict) :=
  if decide (e = CalledProcessError) then Returned None
  else if negb json_bound then Raised UnboundLocalError
  else if decide (e = JSONDecodeError) then Returned None
  else Returned None.

Section fetch.
(** [json.loads]: [None] stands for [JSONDecodeError]. *)
Variable json_loads : string → option pyval.

(** The body of [fetch_taxonomy_data] on the outcome of its
    [subprocess.run] call. *)
Definition fetch_on (o : run_outcome) : result (option pydict) :=
  match o with
  | RunRaises e => handlers false e
  | RunCompleted returncode stdout =>
      if negb (Z.eqb returncode 0) then Returned None
      else
        match json_loads stdout with
        | None => handlers true JSONDecodeError
        | Some taxonomy_json =>
            match extract_lineage taxonomy_json with
            | Returned taxonomy_info => Returned (Some taxonomy_info)
            | Raised e => handlers true e
            end
        end
  end.
End fetch.

(** ** The outside world

    Every lookup is one [subprocess.run] call.  The world decides its
    outcome from the identifier and from the number of lookups already
    issued for that identifier; since the script issues its lookups one
    after the other, any behaviour of the external tool is such a
    function.  The state threaded through the script is the log of the
    identifiers looked up so far, oldest first. *)

Definition world : Type := pyval → nat → run_outcome.

Definition attempts_of (taxid : pyval) (log : list pyval) : nat :=
  length (filter (λ t, t = taxid) log).

Definition M (A : Type) : Type := list pyval → result A * list pyval.

Definition M_ret {A} (a : A) : M A := λ log, (Returned a, log).

Definition M_bind {A B} (c : M A) (k : A → M B) : M B :=
  λ log, match c log with
         | (Returned a, log) => k a log
         | (Raised e, log) => (Raised e, log)
         end.

Notation "'let!' x := c 'in' k" := (M_bind c (λ x, k))
  (at level 10, x name, c at level 100, k at level 200).

Section orchestrator.
Variable json_loads : string → option pyval.
Variable w : world.

Definition fetch_taxonomy_data (taxid : pyval) : M (option pydict) :=
  λ log, (fetch_on json_loads (w taxid (attempts_of taxid log)), log ++ [taxid]).

(** The record appended once the retries are used up (lines 129-138). *)
Definition exhausted_record (taxid : pyval) : pydict :=
  [("kingdom_id", PStr "None"); ("kingdom_name", PStr "None");
   ("phylum_id", PStr "None"); ("phylum_name", PStr "None");
   ("class_id", PStr "None"); ("class_name", PStr "None");
   ("order_id", PStr "None"); ("order_name", PStr "None");
   ("family_id", PStr "None"); ("family_name", PStr "None");
   ("genus_id", PStr "None"); ("genus_name", PStr "None");
   ("species_id", PStr "None"); ("species_name", PStr "None");
   ("TaxID", taxid)].

(** The body of the [for] loop (lines 120-139) on one item of
    [failed_taxids].  [if taxonomy_info:] is false on [None] and on an
    empty dict. *)
Definition visit (max_retries : Z) (st : list (pyval * Z) * list pydict)
    (item : pyval * Z) : M (list (pyval * Z) * list pydict) :=
  let '(current_failed, final_data) := st in
  let '(taxid, retries) := item in
  if decide (retries < max_retries) then
    let! taxonomy_info := fetch_taxonomy_data taxid in
    match taxonomy_info with
    | Some ((_ :: _) as taxonomy_info) =>
        M_ret (current_failed, final_data ++ [dict_set taxonomy_info "TaxID" taxid])
    | _ => M_ret (dict_set current_failed taxid (retries + 1), final_data)
    end
  else
    M_ret (current_failed, final_data ++ [exhausted_record taxid]).

Fixpoint for_items (max_retries : Z) (items : list (pyval * Z))
    (st : list (pyval * Z) * list pydict) : M (list (pyval * Z) * list pydict) :=
  match items with
  | [] => M_ret st
  | item :: items =>
      let! st := visit max_retries st item in
      for_items max_retries items st
  end.

(** One round: one pass of the [while] body (lines 118-140).  The [print]
    calls of the script change no value and are left out. *)
Definition round (max_retries : Z) (failed_taxids : list (pyval * Z))
    (final_data : list pydict) : M (list (pyval * Z) * list pydict) :=
  for_items max_retries failed_taxids ([], final_data).

(** The [while failed_taxids:] loop when the pause between two rounds
    (line 143) is one [time.sleep] accepts; the loop with the pause is
    [while_failed_sleeping] below.  [None] means that [fuel] rounds were
    not enough. *)
Fixpoint while_failed (fuel : nat) (max_retries : Z) (failed_taxids : list (pyval * Z))
    (final_data : list pydict) (log : list pyval)
    : option (result (list pydict) * list pyval) :=
  match failed_taxids with
  | [] => Some (Returned final_data, log)
  | _ :: _ =>
      match fuel with
      | O => None
      | S fuel =>
          match round max_retries failed_taxids final_data log with
          | (Returned (current_failed, final_data), log) =>
              while_failed fuel max_retries current_failed final_data log
          | (Raised e, log) => Some (Raised e, log)
          end
      end
  end.

(** [{taxid: 0 for taxid in taxids}].  Two keys are the same key when they
    are the same value of [pyval]: this is how Python compares integers
    with integers and strings with strings, the identifiers the statements
    on repeated identifiers are about. *)
Definition initial_failed (taxids : list pyval) : list (pyval * Z) :=
  fold_left (λ d taxid, dict_set d taxid 0) taxids [].

(** Rounds granted to the loop; [process_records_terminates] below shows
    that the loop never uses them up. *)
Definition round_budget (max_retries : Z) : nat := S (Z.to_nat max_retries).

(** [process_taxids] up to the list [final_data] it builds, with the log
    of the lookups issued; the log is empty when the script starts.  The
    call is one whose [delay] is a pause [time.sleep] accepts, as the
    default 2 that [main] passes. *)
Definition process_records (taxids : list pyval) (max_retries : Z)
    : option (result (list pydict) * list pyval) :=
  while_failed (round_budget max_retries) max_retries (initial_failed taxids) [] [].



End orchestrator.

(** ** Tables

    The part of pandas the script uses.  A frame is its column labels and
    its rows, each row holding one cell per column; a missing cell is
    [PNaN]. *)

Record DataFrame : Type := { columns : list string; rows : list (list pyval) }.

Definition well_formed (df : DataFrame) : Prop :=
  Forall (λ row, length row = length (columns df)) (rows df).

Definition isna (v : pyval) : bool :=
  match v with
  | PNaN | PNone => true
  | _ => false
  end.

Fixpoint col_index (name : string) (cols : list string) : option nat :=
  match cols with
  | [] => None
  | c :: cols => if decide (c = name) then Some O else S <$> col_index name cols
  end.

Definition cell (i : nat) (row : list pyval) : pyval := default PNaN (row !! i).

(** [df[name]] *)
Definition column (df : DataFrame) (name : string) : option (list pyval) :=
  i ← col_index name (columns df); Some (map (cell i) (rows df)).

(** [Series.dropna()] *)
Definition dropna (l : list pyval) : list pyval := filter (λ v, isna v = false) l.

(** [Series.unique()]: the distinct values in order of first appearance,
    two cells being the same value when they are the same [pyval]. *)
Fixpoint unique (l : list pyval) : list pyval :=
  match l with
  | [] => []
  | x :: l => x :: filter (λ y, y ≠ x) (unique l)
  end.

(** [pd.DataFrame(records)]: the columns are the keys of the records in
    order of first appearance, a key a record lacks gives a missing
    cell.  The cells are kept as the records hold them; the storage type
    pandas picks for a column of numbers is not tracked, so the statements
    on the values of lineage cells speak of strings and of missing
    cells. *)
Definition add_keys (cols : list string) (record : pydict) : list string :=
  fold_left (λ cols k, if decide (k ∈ cols) then cols else cols ++ [k]) (dict_keys record) cols.

Definition DataFrame_of_records (records : list pydict) : DataFrame :=
  let cols := fold_left add_keys records [] in
  {| columns := cols;
     rows := map (λ record, map (λ c, default PNaN (dict_get record c)) cols) records |}.

(** [pd.merge(left, right, on=on, how='left')]: every left row, in order,
    is paired with each right row carrying the same key, or with missing
    cells when there is none.  A label other than the key that both frames
    carry gets the suffix [_x] on the left and [_y] on the right; the
    statements on [main] are about tables without such a label
    ([no_lineage_label] below). *)
Definition suffixed (left right : DataFrame) (on suffix c : string) : string :=
  if decide (c ≠ on ∧ c ∈ columns left ∧ c ∈ columns right) then c +:+ suffix else c.

Definition merge_left (left right : DataFrame) (on : string) : result DataFrame :=
  match col_index on (columns left), col_index on (columns right) with
  | Some i, Some j =>
      let right_columns := delete j (columns right) in
      Returned
        {| columns := map (suffixed left right on "_x") (columns left)
                      ++ map (suffixed left right on "_y") right_columns;
           rows := flat_map (λ lrow,
                     match filter (λ rrow, cell j rrow = cell i lrow) (rows right) with
                     | [] => [lrow ++ replicate (length right_columns) PNaN]
                     | matches => map (λ rrow, lrow ++ delete j rrow) matches
                     end) (rows left) |}
  | _, _ => Raised KeyError
  end.

(** [df[cols] = df[cols].fillna(value)] *)
Definition fillna (df : DataFrame) (cols : list string) (value : pyval) : DataFrame :=
  {| columns := columns df;
     rows := map (λ row,
               zip_with (λ c x, if decide (c ∈ cols) then (if isna x then value else x) else x)
                        (columns df) row) (rows df) |}.

(** ** [process_taxids] and [main] *)

Inductive main_outcome : Type :=
  | SysExit (code : Z)
  | Uncaught (e : exn)
  | Written (df_output : DataFrame).

Section script.
Variable json_loads : string → option pyval.
Variable w : world.

Definition process_taxids (taxids : list pyval) (max_retries : Z)
    : option (result DataFrame * list pyval) :=
  match process_records json_loads w taxids max_retries with
  | Some (Returned final_data, log) => Some (Returned (DataFrame_of_records final_data), log)
  | Some (Raised e, log) => Some (Raised e, log)
  | None => None
  end.

(** [main] from the table [read_csv] returned (line 171 on) up to the
    table handed to [to_csv], with the log of the lookups issued.
    [process_taxids] is called with its default [max_retries=3]. *)
Definition main (df_input : DataFrame) : option (main_outcome * list pyval) :=
  match column df_input "TaxID" with
  | None => Some (SysExit 1, [])
  | Some taxid_column =>
      let unique_taxids := unique (dropna taxid_column) in
      match unique_taxids with
      | [] => Some (SysExit 1, [])
      | _ :: _ =>
          match process_taxids unique_taxids 3 with
          | None => None
          | Some (Raised e, log) => Some (Uncaught e, log)
          | Some (Returned taxonomy_df, log) =>
              match merge_left df_input taxonomy_df "TaxID" with
              | Raised e => Some (Uncaught e, log)
              | Returned df_output =>
                  let taxonomy_columns :=
                    filter (λ col, col ∉ columns df_input) (columns df_output) in
                  Some (Written (fillna df_output taxonomy_columns (PStr "None")), log)
              end
          end
      end
  end.
(** [main] from [read_csv] (line 158) to [to_csv] (line 196).  [read_csv]
    is the table [pd.read_csv] returns, or [None] when it raises an
    exception (lines 159-168); [to_csv_raises] tells whether
    [df_output.to_csv] raises one (lines 198-200).  [Written] now stands
    for a table that is in the output file. *)
Definition main_with_files (read_csv : option DataFrame) (to_csv_raises : bool)
    : option (main_outcome * list pyval) :=
  match read_csv with
  | None => Some (SysExit 1, [])
  | Some df_input =>
      match main df_input with
      | Some (Written df_output, log) =>
          if to_csv_raises then Some (SysExit 1, log) else Some (Written df_output, log)
      | outcome => outcome
      end
  end.
End script.

(** ** Sample worlds *)

(** A decoder that knows two responses: a lineage with four ranks, and a
    taxonomy without classification. *)
Definition human_classification : pydict :=
  [("superkingdom", PDict [("id", PInt 2759); ("name", PStr "Eukaryota")]);
   ("kingdom", PDict [("id", PInt 33208); ("name", PStr "Metazoa")]);
   ("genus", PDict [("id", PInt 9605); ("name", PStr "Homo")]);
   ("species", PDict [("id", PInt 9606); ("name", PStr "Homo sapiens")])].

Definition human_taxonomy : pyval :=
  PDict [("tax_id", PInt 9606); ("classification", PDict human_classification)].

Definition human_json : pyval := PDict [("taxonomy", human_taxonomy)].

Definition sample_loads (stdout : string) : option pyval :=
  if decide (stdout = "human") then Some human_json
  else if decide (stdout = "empty") then Some (PDict [("taxonomy", PDict [])])
  else None.

(** The records [fetch_taxonomy_data] builds from the two responses. *)
Definition human_record : pydict :=
  [("superkingdom_id", PInt 2759); ("superkingdom_name", PStr "Eukaryota");
   ("kingdom_id", PInt 33208); ("kingdom_name", PStr "Metazoa");
   ("phylum_id", PStr "None"); ("phylum_name", PStr "None");
   ("class_id", PStr "None"); ("class_name", PStr "None");
   ("order_id", PStr "None"); ("order_name", PStr "None");
   ("family_id", PStr "None"); ("family_name", PStr "None");
   ("genus_id", PInt 9605); ("genus_name", PStr "Homo");
   ("species_id", PInt 9606); ("species_name", PStr "Homo sapiens")].

Definition blank_record : pydict :=
  [("superkingdom_id", PStr "None"); ("superkingdom_name", PStr "None");
   ("kingdom_id", PStr "None"); ("kingdom_name", PStr "None");
   ("phylum_id", PStr "None"); ("phylum_name", PStr "None");
   ("class_id", PStr "None"); ("class_name", PStr "None");
   ("order_id", PStr "None"); ("order_name", PStr "None");
   ("family_id", PStr "None"); ("family_name", PStr "None");
   ("genus_id", PStr "None"); ("genus_name", PStr "None");
   ("species_id", PStr "None"); ("species_name", PStr "None")].

Definition world_nonzero_exit : world := λ _ _, RunRaises CalledProcessError.
Definition world_no_executable : world := λ _ _, RunRaises FileNotFoundError.
Definition world_ok : world := λ _ _, RunCompleted 0 "human".

(** The first lookup of an identifier fails, the second succeeds. *)
Definition world_flaky : world :=
  λ _ k, match k with O => RunRaises CalledProcessError | _ => RunCompleted 0 "human" end.

(** ** Sample tables *)

(** The identifier 9606 twice, then 10090. *)
Definition scenario_table : DataFrame :=
  {| columns := ["TaxID"; "note"];
     rows := [[PInt 9606; PStr "a"]; [PInt 9606; PStr "b"]; [PInt 10090; PStr "c"]] |}.

(** A table of taxon names whose second row has no identifier. *)
Definition gap_table : DataFrame :=
  {| columns := ["TaxID"; "note"];
     rows := [[PStr "Homo sapiens"; PStr "a"]; [PNaN; PStr "b"]] |}.

(** A table in which no row has an identifier. *)
Definition all_missing_table : DataFrame :=
  {| columns := ["TaxID"; "note"];
     rows := [[PNaN; PStr "a"]; [PNaN; PStr "b"]] |}.

(** The tables [main] writes for them when every lookup answers with the
    sample lineage. *)
Definition scenario_output : DataFrame :=
  Eval vm_compute in
    match main sample_loads world_ok scenario_table with
    | Some (Written df_output, _) => df_output
    | _ => {| columns := []; rows := [] |}
    end.

Definition gap_output : DataFrame :=
  Eval vm_compute in
    match main sample_loads world_ok gap_table with
    | Some (Written df_output, _) => df_output
    | _ => {| columns := []; rows := [] |}
    end.

(** ** More sample responses *)

(** The sample lineage with a rank outside the fixed list in front. *)
Definition clade_classification : pydict :=
  ("clade", PDict [("id", PInt 33154); ("name", PStr "Opisthokonta")]) :: human_classification.

(** A classification whose kingdom is [null] and whose phylum is [{}]. *)
Definition hollow_classification : pydict :=
  [("kingdom", PNone); ("phylum", PDict []);
   ("genus", PDict [("id", PInt 9605); ("name", PStr "Homo")])].

(** A classification whose genus has an id and no name. *)
Definition broken_classification : pydict :=
  [("kingdom", PDict [("id", PInt 33208); ("name", PStr "Metazoa")]);
   ("genus", PDict [("id", PInt 9605)])].

Definition response_with (classification : pydict) : pyval :=
  PDict [("taxonomy", PDict [("classification", PDict classification)])].

(** A decoder for five more responses; the last two have no usable
    [taxonomy] entry. *)
Definition odd_loads (stdout : string) : option pyval :=
  if decide (stdout = "human") then Some (response_with human_classification)
  else if decide (stdout = "clade") then Some (response_with clade_classification)
  else if decide (stdout = "hollow") then Some (response_with hollow_classification)
  else if decide (stdout = "broken") then Some (response_with broken_classification)
  else if decide (stdout = "bare") then Some (PDict [("tax_id", PInt 9606)])
  else if decide (stdout = "list") then Some (PList [PInt 9606])
  else None.

(** The record built from the response ["hollow"]. *)
Definition hollow_record : pydict :=
  [("superkingdom_id", PStr "None"); ("superkingdom_name", PStr "None");
   ("kingdom_id", PStr "None"); ("kingdom_name", PStr "None");
   ("phylum_id", PStr "None"); ("phylum_name", PStr "None");
   ("class_id", PStr "None"); ("class_name", PStr "None");
   ("order_id", PStr "None"); ("order_name", PStr "None");
   ("family_id", PStr "None"); ("family_name", PStr "None");
   ("genus_id", PInt 9605); ("genus_name", PStr "Homo");
   ("species_id", PStr "None"); ("species_name", PStr "None")].

(** The identifier 0 always fails, every other identifier succeeds. *)
Definition world_mixed : world :=
  λ t _, if decide (t = PInt 0) then RunRaises CalledProcessError else RunCompleted 0 "human".

Definition mixed_table : DataFrame :=
  {| columns := ["TaxID"; "note"];
     rows := [[PInt 9606; PStr "a"]; [PInt 0; PStr "b"]] |}.

Definition output_of (w : world) (df_input : DataFrame) : DataFrame :=
  match main sample_loads w df_input with
  | Some (Written df_output, _) => df_output
  | _ => {| columns := []; rows := [] |}
  end.

Definition mixed_output : DataFrame := Eval vm_compute in output_of world_mixed mixed_table.

Definition flaky_output : DataFrame := Eval vm_compute in output_of world_flaky scenario_table.

Definition failed_output : DataFrame :=
  Eval vm_compute in output_of world_nonzero_exit mixed_table.

(** ** Vocabulary of the statements *)

(** The two keys a rank contributes, [f"{rank}_id"] and [f"{rank}_name"]. *)
Definition rank_keys (rank : string) : list string := [rank +:+ "_id"; rank +:+ "_name"].
Arguments rank_keys : simpl never.

Definition lineage_columns : list string := flat_map rank_keys taxonomic_ranks.

(** [record['TaxID']] *)
Definition taxid_of (record : pydict) : pyval := default PNaN (dict_get record "TaxID").

Section retry_vocabulary.
Variable json_loads : string → option pyval.
Variable w : world.
Variable max_retries : Z.

(** What the [k]-th lookup of [taxid] returns to [process_taxids]
    (counting from 0). *)
Definition fetch_result (taxid : pyval) (k : nat) : result (option pydict) :=
  fetch_on json_loads (w taxid k).

(** An entry [(taxid, retries)] of [failed_taxids]: [retries] counts the
    lookups issued for [taxid], and all of them failed. *)
Definition pending (log : list pyval) (item : pyval * Z) : Prop :=
  item.2 = Z.of_nat (attempts_of item.1 log)
  ∧ item.2 ≤ Z.max 0 max_retries
  ∧ ∀ k, (k < attempts_of item.1 log)%nat → fetch_result item.1 k = Returned None.

(** A record of [final_data]: either the record of the first successful
    lookup, with the identifier added, or the record of line 129, once
    [max_retries] lookups have failed. *)
Definition settled (log : list pyval) (record : pydict) : Prop :=
  let taxid := taxid_of record in
  (∃ k info,
      attempts_of taxid log = S k
      ∧ Z.of_nat k < max_retries
      ∧ (∀ j, (j < k)%nat → fetch_result taxid j = Returned None)
      ∧ fetch_result taxid k = Returned (Some info)
      ∧ record = dict_set info "TaxID" taxid)
  ∨ (record = exhausted_record taxid
     ∧ Z.of_nat (attempts_of taxid log) = Z.max 0 max_retries
     ∧ ∀ k, (k < attempts_of taxid log)%nat → fetch_result taxid k = Returned None).

(** The loop invariant: the identifiers [ids] of the dict the loop starts
    from are split between [final_data] and [failed_taxids]. *)
Definition loop_inv (ids : list pyval) (failed_taxids : list (pyval * Z))
    (final_data : list pydict) (log : list pyval) : Prop :=
  map taxid_of final_data ++ dict_keys failed_taxids ≡ₚ ids
  ∧ Forall (pending log) failed_taxids
  ∧ Forall (settled log) final_data
  ∧ ∀ t, t ∈ log → t ∈ ids.

(** An entry of [current_failed] comes from an entry of [failed_taxids]
    that had retries left, with one retry more. *)
Definition survivor (items : list (pyval * Z)) (item' : pyval * Z) : Prop :=
  ∃ retries, (item'.1, retries) ∈ items ∧ retries < max_retries ∧ item'.2 = retries + 1.
End retry_vocabulary.

(** No column of the table is labelled like a lineage column. *)
Definition no_lineage_label (df : DataFrame) : Prop :=
  ∀ c, c ∈ columns df → c ∉ lineage_columns.

(** The row [pd.DataFrame] builds from a record. *)
Definition row_of_record (cols : list string) (record : pydict) : list pyval :=
  map (λ c, default PNaN (dict_get record c)) cols.

(** What a left merge appends to a left row with key [k]. *)
Definition right_part (right : DataFrame) (j : nat) (k : pyval) : list pyval :=
  match filter (λ rrow, cell j rrow = k) (rows right) with
  | [] => replicate (length (delete j (columns right))) PNaN
  | rrow :: _ => delete j rrow
  end.

(** [fillna('None')] on one cell. *)
Definition fill_None (x : pyval) : pyval := if isna x then PStr "None" else x.

(** An identifier that is an integer or a string. *)
Definition plain_identifier (taxid : pyval) : Prop :=
  match taxid with
  | PInt _ | PStr _ => True
  | _ => False
  end.

(** The lineage cells [cells] of an output row against the record of its
    identifier, column by column of the new columns [extra]: a string of
    the record is in the cell as it is, and a key the record lacks gives
    the string ['None']. *)
Definition joined (extra : list string) (record : pydict) (cells : list pyval) : Prop :=
  length cells = length extra
  ∧ ∀ p c,
      extra !! p = Some c →
      (∀ s, dict_get record c = Some (PStr s) → cells !! p = Some (PStr s))
      ∧ (dict_get record c = None → cells !! p = Some (PStr "None")).

(** The classification of a decoded response (lines 68-69). *)
Definition classification_in (taxonomy_json : pyval) : result pyval :=
  try! taxonomy := py_get taxonomy_json "taxonomy" (PList []) in
  py_get taxonomy "classification" (PDict []).

(** The id and the name the loop of lines 76-88 stores for a rank. *)
Definition rank_values (classification : pyval) (rank : string) : result (pyval * pyval) :=
  try! taxon := py_get classification rank PNone in
  if truthy taxon then
    try! i := py_getitem taxon "id" in
    try! n := py_getitem taxon "name" in
    Returned (i, n)
  else Returned (PStr "None", PStr "None").

(** A record with the seventeen keys of a successful lookup, in order. *)
Definition fetched_shape (record : pydict) : Prop :=
  dict_keys record = lineage_columns ++ ["TaxID"].

(** In [final_data] the records of successful lookups come first, the
    records of line 129 after them. *)
Definition fetched_first (final_data : list pydict) : Prop :=
  ∃ fetched exhausted,
    final_data = fetched ++ exhausted
    ∧ Forall fetched_shape fetched
    ∧ Forall (λ record, ∃ taxid, record = exhausted_record taxid) exhausted.

(** * Properties *)

(** ** Dicts *)

Section dict_facts.
Context {K V : Type} `{EqDecision K}.
Implicit Types (d : list (K * V)) (k : K) (v : V).

Lemma dict_get_set d k v k' :
  dict_get (dict_set d k v) k' = if decide (k = k') then Some v else dict_get d k'.
Proof.
  induction d as [| [k0 v0] d IH]; simpl.
  - by destruct (decide (k = k')).
  - destruct (decide (k0 = k)) as [-> | Hne]; simpl.
    + by destruct (decide (k = k')).
    + rewrite IH. destruct (decide (k0 = k')) as [-> | ?]; [| done].
      by rewrite decide_False.
Qed.

Lemma dict_get_set_eq d k v : dict_get (dict_set d k v) k = Some v.
Proof. rewrite dict_get_set. by rewrite decide_True. Qed.

Lemma dict_get_set_ne d k v k' : k ≠ k' → dict_get (dict_set d k v) k' = dict_get d k'.
Proof. intros. rewrite dict_get_set. by rewrite decide_False. Qed.

Lemma dict_set_fresh d k v : k ∉ dict_keys d → dict_set d k v = d ++ [(k, v)].
Proof.
  unfold dict_keys. induction d as [| [k0 v0] d IH]; simpl; [done |].
  rewrite not_elem_of_cons. intros [Hne Hd].
  rewrite decide_False by done. by rewrite IH.
Qed.

Lemma dict_set_keys_subseteq d k v : dict_keys (dict_set d k v) ⊆ k :: dict_keys d.
Proof.
  unfold dict_keys. induction d as [| [k0 v0] d IH]; simpl; [set_solver |].
  destruct (decide (k0 = k)) as [-> | ?]; simpl; set_solver.
Qed.

Lemma dict_set_length d k v : (length (dict_set d k v) ≤ S (length d))%nat.
Proof.
  induction d as [| [k0 v0] d IH]; simpl; [lia |].
  destruct (decide (k0 = k)); simpl; lia.
Qed.

Lemma dict_set_Forall (Q : K * V → Prop) d k v :
  Forall Q d → Q (k, v) → Forall Q (dict_set d k v).
Proof.
  intros Hd Hk. induction Hd as [| [k0 v0] d H0 Hd IH]; simpl.
  - by constructor.
  - destruct (decide (k0 = k)); by constructor.
Qed.

Lemma dict_get_Some_keys d k v : dict_get d k = Some v → k ∈ dict_keys d.
Proof.
  unfold dict_keys. induction d as [| [k0 v0] d IH]; simpl; [done |].
  destruct (decide (k0 = k)) as [-> | ?]; set_solver.
Qed.
End dict_facts.

Section dict_keys_facts.
Context {K V : Type} `{EqDecision K}.
Implicit Types (d : list (K * V)) (k : K) (v : V).

Lemma dict_keys_cons d k v : dict_keys ((k, v) :: d) = k :: dict_keys d.
Proof. reflexivity. Qed.

Lemma dict_set_keys d k v :
  dict_keys (dict_set d k v)
  = if decide (k ∈ dict_keys d) then dict_keys d else dict_keys d ++ [k].
Proof.
  induction d as [| [k0 v0] d IH]; cbn [dict_set]; [done |].
  destruct (decide (k0 = k)) as [-> | Hne]; rewrite !dict_keys_cons.
  - rewrite decide_True by left. done.
  - rewrite IH. destruct (decide (k ∈ dict_keys d)) as [Hin | Hnin].
    + rewrite decide_True by by right. done.
    + rewrite decide_False; [done |]. rewrite not_elem_of_cons. split; congruence.
Qed.

Lemma dict_set_NoDup d k v : NoDup (dict_keys d) → NoDup (dict_keys (dict_set d k v)).
Proof.
  intros Hnd. rewrite dict_set_keys. case_decide; [done |].
  apply NoDup_app. split; [done |]. split; [| apply NoDup_singleton].
  intros x Hx. rewrite list_elem_of_singleton. by intros ->.
Qed.

Lemma dict_set_elem_of d k v k' :
  k' ∈ dict_keys (dict_set d k v) ↔ k' ∈ dict_keys d ∨ k' = k.
Proof.
  rewrite dict_set_keys. case_decide.
  - split; [by left |]. by intros [? | ->].
  - rewrite elem_of_app, list_elem_of_singleton. done.
Qed.
End dict_keys_facts.

(** ** The lineage fetcher *)

Lemma dict_set_nonempty (d : pydict) k v : dict_set d k v ≠ [].
Proof. destruct d as [| [k0 v0] d]; simpl; [done |]. by destruct (decide (k0 = k)). Qed.

Lemma rank_step_frame classification info rank info' key :
  rank_step classification info rank = Returned info' →
  key ∉ rank_keys rank →
  dict_get info' key = dict_get info key.
Proof.
  unfold rank_step, rank_keys. rewrite !not_elem_of_cons. intros Hstep (Hid & Hname & _).
  destruct (py_get classification rank PNone) as [taxon |]; simpl in Hstep; [| done].
  destruct (truthy taxon).
  - destruct (py_getitem taxon "id") as [i |]; simpl in Hstep; [| done].
    destruct (py_getitem taxon "name") as [n |]; simpl in Hstep; [| done].
    injection Hstep as <-. by rewrite !dict_get_set_ne.
  - injection Hstep as <-. by rewrite !dict_get_set_ne.
Qed.

Lemma rank_step_nonempty classification info rank info' :
  rank_step classification info rank = Returned info' → info' ≠ [].
Proof.
  unfold rank_step. intros Hstep.
  destruct (py_get classification rank PNone) as [taxon |]; simpl in Hstep; [| done].
  destruct (truthy taxon).
  - destruct (py_getitem taxon "id") as [i |]; simpl in Hstep; [| done].
    destruct (py_getitem taxon "name") as [n |]; simpl in Hstep; [| done].
    injection Hstep as <-. apply dict_set_nonempty.
  - injection Hstep as <-. apply dict_set_nonempty.
Qed.

Lemma rank_step_absent (classification : pydict) info rank :
  dict_get classification rank = None →
  rank_step (PDict classification) info rank
  = Returned (dict_set (dict_set info (rank +:+ "_id") (PStr "None"))
                       (rank +:+ "_name") (PStr "None")).
Proof. intros Habs. unfold rank_step. simpl. by rewrite Habs. Qed.

Lemma rank_step_keys classification info rank info' :
  rank_step classification info rank = Returned info' →
  dict_keys info' ⊆ rank_keys rank ++ dict_keys info.
Proof.
  unfold rank_step, rank_keys. intros Hstep.
  destruct (py_get classification rank PNone) as [taxon |]; simpl in Hstep; [| done].
  destruct (truthy taxon).
  - destruct (py_getitem taxon "id") as [i |]; simpl in Hstep; [| done].
    destruct (py_getitem taxon "name") as [n |]; simpl in Hstep; [| done].
    injection Hstep as <-.
    pose proof (dict_set_keys_subseteq (dict_set info (rank +:+ "_id") i) (rank +:+ "_name") n).
    pose proof (dict_set_keys_subseteq info (rank +:+ "_id") i). set_solver.
  - injection Hstep as <-.
    pose proof (dict_set_keys_subseteq (dict_set info (rank +:+ "_id") (PStr "None"))
                  (rank +:+ "_name") (PStr "None")).
    pose proof (dict_set_keys_subseteq info (rank +:+ "_id") (PStr "None")). set_solver.
Qed.

Lemma for_ranks_frame classification ranks : ∀ info info' key,
  for_ranks classification info ranks = Returned info' →
  key ∉ flat_map rank_keys ranks →
  dict_get info' key = dict_get info key.
Proof.
  induction ranks as [| rank ranks IH]; cbn [for_ranks flat_map]; intros info info' key Hfor Hkey.
  - by injection Hfor as <-.
  - rewrite not_elem_of_app in Hkey. destruct Hkey as [Hrank Hrest].
    destruct (rank_step classification info rank) as [info1 |] eqn:Hstep; simpl in Hfor; [| done].
    rewrite (IH _ _ _ Hfor Hrest). eauto using rank_step_frame.
Qed.

Lemma for_ranks_nonempty classification ranks : ∀ info info',
  for_ranks classification info ranks = Returned info' →
  info ≠ [] ∨ ranks ≠ [] → info' ≠ [].
Proof.
  induction ranks as [| rank ranks IH]; cbn [for_ranks flat_map]; intros info info' Hfor Hne.
  - injection Hfor as <-. by destruct Hne.
  - destruct (rank_step classification info rank) as [info1 |] eqn:Hstep; simpl in Hfor; [| done].
    eapply IH; [done |]. left. eauto using rank_step_nonempty.
Qed.

Lemma for_ranks_keys classification ranks : ∀ info info',
  for_ranks classification info ranks = Returned info' →
  dict_keys info' ⊆ flat_map rank_keys ranks ++ dict_keys info.
Proof.
  induction ranks as [| rank ranks IH]; cbn [for_ranks flat_map]; intros info info' Hfor.
  - by injection Hfor as <-.
  - destruct (rank_step classification info rank) as [info1 |] eqn:Hstep; simpl in Hfor; [| done].
    apply IH in Hfor. apply rank_step_keys in Hstep. set_solver.
Qed.

Lemma for_ranks_absent (classification : pydict) ranks rank : ∀ info info',
  NoDup (flat_map rank_keys ranks) →
  rank ∈ ranks →
  dict_get classification rank = None →
  for_ranks (PDict classification) info ranks = Returned info' →
  dict_get info' (rank +:+ "_id") = Some (PStr "None")
  ∧ dict_get info' (rank +:+ "_name") = Some (PStr "None").
Proof.
  induction ranks as [| rank0 ranks IH]; cbn [for_ranks flat_map];
    intros info info' Hnodup Hin Habs Hfor.
  - by apply elem_of_nil in Hin.
  - apply NoDup_app in Hnodup as (Hnd0 & Hdisj & Hnd).
    destruct (rank_step (PDict classification) info rank0) as [info1 |] eqn:Hstep;
      simpl in Hfor; [| done].
    destruct (decide (rank ∈ ranks)) as [Hrest | Hrest]; [by eapply IH |].
    apply elem_of_cons in Hin as [-> | ?]; [| done].
    rewrite rank_step_absent in Hstep by done. injection Hstep as <-.
    assert (rank0 +:+ "_id" ≠ rank0 +:+ "_name") as Hne.
    { unfold rank_keys in Hnd0. apply NoDup_cons in Hnd0 as [Hnd0 _]. set_solver. }
    rewrite !(for_ranks_frame _ _ _ _ _ Hfor) by (apply Hdisj; unfold rank_keys; set_solver).
    rewrite dict_get_set_eq, dict_get_set_ne, dict_get_set_eq by done. done.
Qed.

Lemma lineage_columns_NoDup : NoDup lineage_columns.
Proof. apply (bool_decide_unpack _). by vm_compute. Qed.

Lemma TaxID_not_lineage : "TaxID" ∉ lineage_columns.
Proof. apply (bool_decide_unpack _). by vm_compute. Qed.

Lemma handlers_bound e : handlers true e = Returned None.
Proof. unfold handlers. by repeat case_decide. Qed.

(** Once [subprocess.run] has completed, nothing escapes. *)
Lemma fetch_on_completed json_loads returncode stdout :
  ∃ r, fetch_on json_loads (RunCompleted returncode stdout) = Returned r.
Proof.
  simpl. destruct (negb _); [by eexists |].
  destruct (json_loads stdout) as [taxonomy_json |]; [| by eexists].
  destruct (extract_lineage taxonomy_json); [by eexists |].
  rewrite handlers_bound. by eexists.
Qed.

(** A nonzero exit status is a failure value. *)
Lemma fetch_on_nonzero_exit json_loads :
  fetch_on json_loads (RunRaises CalledProcessError) = Returned None.
Proof. reflexivity. Qed.

(** A response that is not JSON is a failure value. *)
Lemma fetch_on_not_json json_loads stdout :
  json_loads stdout = None → fetch_on json_loads (RunCompleted 0 stdout) = Returned None.
Proof. intros H. simpl. by rewrite H. Qed.

(** The only way out of [fetch_taxonomy_data] with an exception. *)
Lemma fetch_on_raised json_loads o e :
  fetch_on json_loads o = Raised e ↔
  e = UnboundLocalError ∧ ∃ e', o = RunRaises e' ∧ e' ≠ CalledProcessError.
Proof.
  split.
  - destruct o as [e' | returncode stdout].
    + simpl. unfold handlers. case_decide; [done |]. simpl. intros [= <-]. eauto.
    + destruct (fetch_on_completed json_loads returncode stdout) as [r ->]. done.
  - intros (-> & e' & -> & Hne). simpl. unfold handlers. by rewrite decide_False.
Qed.

Lemma fetch_on_nonempty json_loads o info :
  fetch_on json_loads o = Returned (Some info) → info ≠ [].
Proof.
  destruct o as [e | returncode stdout]; simpl.
  - unfold handlers. repeat case_decide; simpl; congruence.
  - destruct (negb _); [done |].
    destruct (json_loads stdout) as [taxonomy_json |]; [| by rewrite handlers_bound].
    destruct (extract_lineage taxonomy_json) as [info0 |] eqn:Hex; [| by rewrite handlers_bound].
    intros [= <-]. unfold extract_lineage in Hex.
    destruct (py_get taxonomy_json "taxonomy" (PList [])) as [taxonomy |];
      cbn [result_bind] in Hex; [| done].
    destruct (py_get taxonomy "classification" (PDict [])) as [cl |];
      cbn [result_bind] in Hex; [| done].
    eapply for_ranks_nonempty; [done |]. by right.
Qed.

Lemma fetch_on_keys json_loads o info :
  fetch_on json_loads o = Returned (Some info) → dict_keys info ⊆ lineage_columns.
Proof.
  destruct o as [e | returncode stdout]; simpl.
  - unfold handlers. repeat case_decide; simpl; congruence.
  - destruct (negb _); [done |].
    destruct (json_loads stdout) as [taxonomy_json |]; [| by rewrite handlers_bound].
    destruct (extract_lineage taxonomy_json) as [info0 |] eqn:Hex; [| by rewrite handlers_bound].
    intros [= <-]. unfold extract_lineage in Hex.
    destruct (py_get taxonomy_json "taxonomy" (PList [])) as [taxonomy |];
      cbn [result_bind] in Hex; [| done].
    destruct (py_get taxonomy "classification" (PDict [])) as [cl |];
      cbn [result_bind] in Hex; [| done].
    apply for_ranks_keys in Hex. unfold lineage_columns. set_solver.
Qed.

(** C1, as the code has it: for every classification dict the lookup
    returned and every rank of the fixed list, a rank whose key is absent
    gets the string ['None'] in both its id field and its name field of
    the record [fetch_taxonomy_data] returns. *)
Theorem absent_rank_yields_None_pair
    (json_loads : string → option pyval) (stdout : string)
    (taxonomy_json taxonomy : pyval) (classification info : pydict) (rank : string) :
  json_loads stdout = Some taxonomy_json →
  py_get taxonomy_json "taxonomy" (PList []) = Returned taxonomy →
  py_get taxonomy "classification" (PDict []) = Returned (PDict classification) →
  fetch_on json_loads (RunCompleted 0 stdout) = Returned (Some info) →
  rank ∈ taxonomic_ranks →
  dict_get classification rank = None →
  dict_get info (rank +:+ "_id") = Some (PStr "None")
  ∧ dict_get info (rank +:+ "_name") = Some (PStr "None").
Proof.
  intros Hloads Htax Hcl Hfetch Hrank Habs. unfold fetch_on in Hfetch.
  change (Z.eqb 0 0) with true in Hfetch. cbn [negb] in Hfetch.
  rewrite Hloads in Hfetch. unfold extract_lineage in Hfetch.
  rewrite Htax in Hfetch. cbn [result_bind] in Hfetch.
  rewrite Hcl in Hfetch. cbn [result_bind] in Hfetch.
  destruct (for_ranks (PDict classification) [] taxonomic_ranks) as [info0 |] eqn:Hfor;
    [| by rewrite handlers_bound in Hfetch].
  injection Hfetch as <-.
  eapply for_ranks_absent; [apply lineage_columns_NoDup | done..].
Qed.

Lemma absent_rank_yields_None_pair_witness :
  fetch_on sample_loads (RunCompleted 0 "human") = Returned (Some human_record)
  ∧ dict_get human_classification "phylum" = None
  ∧ dict_get human_record "phylum_id" = Some (PStr "None")
  ∧ dict_get human_record "phylum_name" = Some (PStr "None").
Proof.
  split; [reflexivity |]. split; [reflexivity |].
  apply (absent_rank_yields_None_pair sample_loads "human" human_json human_taxonomy
           human_classification human_record "phylum"); try reflexivity.
  unfold taxonomic_ranks. repeat constructor.
Defined.

(** C1 as stated fails: with no [superkingdom] key in the classification
    the record holds ['None'], not ["unknown"], for that rank. *)
Lemma absent_rank_is_not_unknown :
  dict_get ([] : pydict) "superkingdom" = None
  ∧ fetch_on sample_loads (RunCompleted 0 "empty") = Returned (Some blank_record)
  ∧ dict_get blank_record "superkingdom_id" = Some (PStr "None")
  ∧ dict_get blank_record "superkingdom_id" ≠ Some (PStr "unknown")
  ∧ dict_get blank_record "superkingdom_name" ≠ Some (PStr "unknown").
Proof. repeat split; try reflexivity; discriminate. Qed.

(** C4 at the failing input: when [subprocess.run] raises anything but
    [CalledProcessError] (here the [datasets] executable is missing), the
    second [except] clause raises [UnboundLocalError], which leaves
    [fetch_taxonomy_data]. *)
Theorem fetch_lets_UnboundLocalError_escape (json_loads : string → option pyval) :
  fetch_taxonomy_data json_loads world_no_executable (PInt 9606) []
  = (Raised UnboundLocalError, [PInt 9606]).
Proof. reflexivity. Qed.

(** *** More on the lineage fetcher *)

Lemma extract_lineage_classification taxonomy_json :
  extract_lineage taxonomy_json
  = try! classification := classification_in taxonomy_json in
    for_ranks classification [] taxonomic_ranks.
Proof.
  unfold extract_lineage, classification_in.
  by destruct (py_get taxonomy_json "taxonomy" (PList [])).
Qed.

Lemma rank_step_values classification info rank :
  rank_step classification info rank
  = try! p := rank_values classification rank in
    Returned (dict_set (dict_set info (rank +:+ "_id") p.1) (rank +:+ "_name") p.2).
Proof.
  unfold rank_step, rank_values.
  destruct (py_get classification rank PNone) as [taxon |]; cbn [result_bind]; [| done].
  destruct (truthy taxon); [| done].
  destruct (py_getitem taxon "id") as [i |]; cbn [result_bind]; [| done].
  by destruct (py_getitem taxon "name").
Qed.

Lemma for_ranks_values classification ranks rank : ∀ info info',
  NoDup (flat_map rank_keys ranks) →
  rank ∈ ranks →
  for_ranks classification info ranks = Returned info' →
  ∃ p, rank_values classification rank = Returned p
       ∧ dict_get info' (rank +:+ "_id") = Some p.1
       ∧ dict_get info' (rank +:+ "_name") = Some p.2.
Proof.
  induction ranks as [| rank0 ranks IH]; cbn [for_ranks flat_map];
    intros info info' Hnodup Hin Hfor.
  - by apply elem_of_nil in Hin.
  - apply NoDup_app in Hnodup as (Hnd0 & Hdisj & Hnd).
    destruct (rank_step classification info rank0) as [info1 |] eqn:Hstep;
      cbn [result_bind] in Hfor; [| done].
    destruct (decide (rank ∈ ranks)) as [Hrest | Hrest]; [by eapply IH |].
    apply elem_of_cons in Hin as [-> | ?]; [| done].
    rewrite rank_step_values in Hstep.
    destruct (rank_values classification rank0) as [p |]; cbn [result_bind] in Hstep; [| done].
    injection Hstep as <-. exists p. split; [done |].
    assert (rank0 +:+ "_id" ≠ rank0 +:+ "_name") as Hne.
    { unfold rank_keys in Hnd0. apply NoDup_cons in Hnd0 as [Hnd0 _]. set_solver. }
    rewrite !(for_ranks_frame _ _ _ _ _ Hfor) by (apply Hdisj; unfold rank_keys; set_solver).
    rewrite dict_get_set_eq, dict_get_set_ne, dict_get_set_eq by done. done.
Qed.

Lemma for_ranks_raises classification ranks rank e : ∀ info,
  rank ∈ ranks →
  rank_values classification rank = Raised e →
  ∃ e', for_ranks classification info ranks = Raised e'.
Proof.
  induction ranks as [| rank0 ranks IH]; cbn [for_ranks]; intros info Hin Hraise.
  - by apply elem_of_nil in Hin.
  - rewrite rank_step_values.
    destruct (rank_values classification rank0) as [p |] eqn:Hp; cbn [result_bind];
      [| by eexists].
    apply elem_of_cons in Hin as [-> | Hin]; [congruence |]. by apply IH.
Qed.

Lemma for_ranks_agree classification1 classification2 ranks : ∀ info,
  (∀ rank, rank ∈ ranks →
     rank_values classification1 rank = rank_values classification2 rank) →
  for_ranks classification1 info ranks = for_ranks classification2 info ranks.
Proof.
  induction ranks as [| rank0 ranks IH]; cbn [for_ranks]; intros info Hagree; [done |].
  rewrite !rank_step_values, (Hagree rank0) by left.
  destruct (rank_values classification2 rank0) as [p |]; cbn [result_bind]; [| done].
  apply IH. intros rank Hrank. apply Hagree. by right.
Qed.

Lemma for_ranks_keys_exact classification ranks : ∀ info info',
  NoDup (dict_keys info ++ flat_map rank_keys ranks) →
  for_ranks classification info ranks = Returned info' →
  dict_keys info' = dict_keys info ++ flat_map rank_keys ranks.
Proof.
  induction ranks as [| rank0 ranks IH]; cbn [for_ranks flat_map]; intros info info' Hnd Hfor.
  - injection Hfor as <-. by rewrite app_nil_r.
  - rewrite rank_step_values in Hfor.
    destruct (rank_values classification rank0) as [p |]; cbn [result_bind] in Hfor; [| done].
    rewrite (assoc_L (++)) in Hnd. pose proof Hnd as Hnd'.
    apply NoDup_app in Hnd' as (Hnd0 & _ & _). unfold rank_keys in Hnd0.
    apply NoDup_app in Hnd0 as (_ & Hfresh & Hpair).
    assert (rank0 +:+ "_id" ∉ dict_keys info) as Hid
      by (intros H; apply (Hfresh _ H); set_solver).
    assert (rank0 +:+ "_name" ∉ dict_keys info) as Hname
      by (intros H; apply (Hfresh _ H); set_solver).
    assert (rank0 +:+ "_id" ≠ rank0 +:+ "_name") as Hne
      by (apply NoDup_cons in Hpair as [Hpair _]; set_solver).
    assert (dict_keys (dict_set (dict_set info (rank0 +:+ "_id") p.1) (rank0 +:+ "_name") p.2)
            = dict_keys info ++ rank_keys rank0) as Hkeys.
    { rewrite dict_set_keys, decide_False.
      - rewrite dict_set_keys, decide_False by done. by rewrite <- (assoc_L (++)).
      - rewrite dict_set_elem_of. intros [? | ?]; congruence. }
    apply IH in Hfor; [| by rewrite Hkeys]. by rewrite Hfor, Hkeys, <- (assoc_L (++)).
Qed.

(** What a successful [fetch_taxonomy_data] went through. *)
Lemma fetch_on_Some json_loads o info :
  fetch_on json_loads o = Returned (Some info) →
  ∃ stdout taxonomy_json classification,
    o = RunCompleted 0 stdout
    ∧ json_loads stdout = Some taxonomy_json
    ∧ classification_in taxonomy_json = Returned classification
    ∧ for_ranks classification [] taxonomic_ranks = Returned info.
Proof.
  destruct o as [e | returncode stdout]; simpl.
  - unfold handlers. repeat case_decide; simpl; congruence.
  - destruct (Z.eqb_spec returncode 0) as [-> | ?]; simpl; [| done].
    destruct (json_loads stdout) as [taxonomy_json |] eqn:Hloads; [| by rewrite handlers_bound].
    rewrite extract_lineage_classification.
    destruct (classification_in taxonomy_json) as [classification |] eqn:Hcl;
      cbn [result_bind]; [| by rewrite handlers_bound].
    destruct (for_ranks classification [] taxonomic_ranks) as [info0 |] eqn:Hfor;
      [| by rewrite handlers_bound].
    intros [= <-]. by exists stdout, taxonomy_json, classification.
Qed.

(** What [fetch_taxonomy_data] returns on a decoded response. *)
Lemma fetch_on_decoded json_loads stdout taxonomy_json :
  json_loads stdout = Some taxonomy_json →
  fetch_on json_loads (RunCompleted 0 stdout)
  = match extract_lineage taxonomy_json with
    | Returned taxonomy_info => Returned (Some taxonomy_info)
    | Raised _ => Returned None
    end.
Proof.
  intros Hloads. unfold fetch_on. change (Z.eqb 0 0) with true. cbn [negb].
  rewrite Hloads. destruct (extract_lineage taxonomy_json); [done |]. apply handlers_bound.
Qed.

Lemma fetch_on_keys_exact json_loads o info :
  fetch_on json_loads o = Returned (Some info) → dict_keys info = lineage_columns.
Proof.
  intros Hfetch.
  apply fetch_on_Some in Hfetch as (stdout & taxonomy_json & classification & _ & _ & _ & Hfor).
  apply for_ranks_keys_exact in Hfor; [done |]. apply lineage_columns_NoDup.
Qed.

(** An exception leaves [fetch_taxonomy_data] exactly when
    [subprocess.run] raised something other than [CalledProcessError], and
    it is then [UnboundLocalError]: once the command has run, every
    failure is the value [None]. *)
Theorem only_a_failed_launch_escapes
    (json_loads : string → option pyval) (o : run_outcome) (e : exn) :
  fetch_on json_loads o = Raised e
  ↔ e = UnboundLocalError ∧ ∃ e', o = RunRaises e' ∧ e' ≠ CalledProcessError.
Proof. apply fetch_on_raised. Qed.

(** A record [fetch_taxonomy_data] returns has exactly the sixteen keys
    [{rank}_id], [{rank}_name] of the eight ranks, in rank order. *)
Theorem fetched_record_has_sixteen_keys
    (json_loads : string → option pyval) (o : run_outcome) (info : pydict) :
  fetch_on json_loads o = Returned (Some info) →
  dict_keys info = lineage_columns.
Proof. apply fetch_on_keys_exact. Qed.

Lemma fetched_record_has_sixteen_keys_witness :
  dict_keys human_record = lineage_columns.
Proof.
  apply (fetched_record_has_sixteen_keys sample_loads (RunCompleted 0 "human") human_record).
  reflexivity.
Defined.

(** A rank the classification holds with an id and a name gets exactly
    these two values in the record, whatever they are. *)
Theorem present_rank_passes_through
    (json_loads : string → option pyval) (stdout : string) (taxonomy_json : pyval)
    (classification info : pydict) (rank : string) (taxon i n : pyval) :
  json_loads stdout = Some taxonomy_json →
  classification_in taxonomy_json = Returned (PDict classification) →
  fetch_on json_loads (RunCompleted 0 stdout) = Returned (Some info) →
  rank ∈ taxonomic_ranks →
  dict_get classification rank = Some taxon →
  truthy taxon = true →
  py_getitem taxon "id" = Returned i →
  py_getitem taxon "name" = Returned n →
  dict_get info (rank +:+ "_id") = Some i ∧ dict_get info (rank +:+ "_name") = Some n.
Proof.
  intros Hloads Hcl Hfetch Hrank Htaxon Htruthy Hid Hname.
  rewrite (fetch_on_decoded _ _ _ Hloads), extract_lineage_classification, Hcl in Hfetch.
  cbn [result_bind] in Hfetch.
  destruct (for_ranks (PDict classification) [] taxonomic_ranks) as [info0 |] eqn:Hfor; [| done].
  injection Hfetch as <-.
  destruct (for_ranks_values _ _ _ _ _ lineage_columns_NoDup Hrank Hfor) as (p & Hp & H1 & H2).
  unfold rank_values in Hp. simpl in Hp. rewrite Htaxon in Hp. simpl in Hp.
  rewrite Htruthy, Hid in Hp. cbn [result_bind] in Hp. rewrite Hname in Hp.
  injection Hp as <-. done.
Qed.

Lemma present_rank_passes_through_witness :
  dict_get human_record "genus_id" = Some (PInt 9605)
  ∧ dict_get human_record "genus_name" = Some (PStr "Homo").
Proof.
  apply (present_rank_passes_through sample_loads "human" human_json human_classification
           human_record "genus" (PDict [("id", PInt 9605); ("name", PStr "Homo")]));
    try reflexivity.
  unfold taxonomic_ranks. repeat constructor.
Defined.

(** A rank the classification holds with a false value ([null], an empty
    dict, an empty string, zero) is treated like an absent rank: both its
    fields are the string ['None']. *)
Theorem false_rank_yields_None_pair
    (json_loads : string → option pyval) (stdout : string) (taxonomy_json : pyval)
    (classification info : pydict) (rank : string) (taxon : pyval) :
  json_loads stdout = Some taxonomy_json →
  classification_in taxonomy_json = Returned (PDict classification) →
  fetch_on json_loads (RunCompleted 0 stdout) = Returned (Some info) →
  rank ∈ taxonomic_ranks →
  dict_get classification rank = Some taxon →
  truthy taxon = false →
  dict_get info (rank +:+ "_id") = Some (PStr "None")
  ∧ dict_get info (rank +:+ "_name") = Some (PStr "None").
Proof.
  intros Hloads Hcl Hfetch Hrank Htaxon Hfalse.
  rewrite (fetch_on_decoded _ _ _ Hloads), extract_lineage_classification, Hcl in Hfetch.
  cbn [result_bind] in Hfetch.
  destruct (for_ranks (PDict classification) [] taxonomic_ranks) as [info0 |] eqn:Hfor; [| done].
  injection Hfetch as <-.
  destruct (for_ranks_values _ _ _ _ _ lineage_columns_NoDup Hrank Hfor) as (p & Hp & H1 & H2).
  unfold rank_values in Hp. simpl in Hp. rewrite Htaxon in Hp. simpl in Hp.
  rewrite Hfalse in Hp. injection Hp as <-. done.
Qed.

Lemma false_rank_yields_None_pair_witness :
  dict_get hollow_record "phylum_id" = Some (PStr "None")
  ∧ dict_get hollow_record "phylum_name" = Some (PStr "None").
Proof.
  apply (false_rank_yields_None_pair odd_loads "hollow" (response_with hollow_classification)
           hollow_classification hollow_record "phylum" (PDict [])); try reflexivity.
  unfold taxonomic_ranks. repeat constructor.
Defined.

(** One rank of the list whose entry is true but has no [id] or no [name]
    (or is not a dict) makes the whole lookup a failure: the value [None],
    whatever the other ranks hold. *)
Theorem malformed_rank_fails_the_lookup
    (json_loads : string → option pyval) (stdout : string) (taxonomy_json : pyval)
    (classification : pydict) (rank : string) (taxon : pyval) (e : exn) :
  json_loads stdout = Some taxonomy_json →
  classification_in taxonomy_json = Returned (PDict classification) →
  rank ∈ taxonomic_ranks →
  dict_get classification rank = Some taxon →
  truthy taxon = true →
  py_getitem taxon "id" = Raised e ∨ py_getitem taxon "name" = Raised e →
  fetch_on json_loads (RunCompleted 0 stdout) = Returned None.
Proof.
  intros Hloads Hcl Hrank Htaxon Htruthy Hbad.
  rewrite (fetch_on_decoded _ _ _ Hloads), extract_lineage_classification, Hcl.
  cbn [result_bind].
  assert (∃ e', rank_values (PDict classification) rank = Raised e') as [e' He'].
  { unfold rank_values. simpl. rewrite Htaxon. simpl. rewrite Htruthy.
    destruct Hbad as [-> | Hname]; [by eexists |].
    destruct (py_getitem taxon "id"); cbn [result_bind]; [| by eexists].
    rewrite Hname. by eexists. }
  destruct (for_ranks_raises _ _ _ _ [] Hrank He') as [e'' ->]. done.
Qed.

Lemma malformed_rank_fails_the_lookup_witness :
  fetch_on odd_loads (RunCompleted 0 "broken") = Returned None.
Proof.
  apply (malformed_rank_fails_the_lookup odd_loads "broken" (response_with broken_classification)
           broken_classification "genus" (PDict [("id", PInt 9605)]) KeyError);
    try reflexivity.
  - unfold taxonomic_ranks. repeat constructor.
  - right. reflexivity.
Defined.

(** A response that is not a JSON object, or that has no [taxonomy] key,
    is a failure: the default of [get('taxonomy', [])] is a list, which has
    no [get]. *)
Theorem response_without_taxonomy_fails
    (json_loads : string → option pyval) (stdout : string) (taxonomy_json : pyval) :
  json_loads stdout = Some taxonomy_json →
  (∀ d, taxonomy_json = PDict d → dict_get d "taxonomy" = None) →
  fetch_on json_loads (RunCompleted 0 stdout) = Returned None.
Proof.
  intros Hloads Hno. rewrite (fetch_on_decoded _ _ _ Hloads). unfold extract_lineage.
  destruct taxonomy_json as [| | | | | | d]; try done.
  simpl. by rewrite (Hno d eq_refl).
Qed.

Lemma response_without_taxonomy_fails_witness :
  fetch_on odd_loads (RunCompleted 0 "bare") = Returned None.
Proof.
  apply (response_without_taxonomy_fails odd_loads "bare" (PDict [("tax_id", PInt 9606)])).
  - reflexivity.
  - intros d Hd. injection Hd as <-. reflexivity.
Defined.

(** A taxonomy without [classification] key is no failure: the lookup
    returns the record whose sixteen fields are the string ['None']. *)
Theorem taxonomy_without_classification_is_blank
    (json_loads : string → option pyval) (stdout : string) (taxonomy_json : pyval)
    (taxonomy : pydict) :
  json_loads stdout = Some taxonomy_json →
  py_get taxonomy_json "taxonomy" (PList []) = Returned (PDict taxonomy) →
  dict_get taxonomy "classification" = None →
  fetch_on json_loads (RunCompleted 0 stdout) = Returned (Some blank_record).
Proof.
  intros Hloads Htax Hno. rewrite (fetch_on_decoded _ _ _ Hloads). unfold extract_lineage.
  rewrite Htax. simpl. by rewrite Hno.
Qed.

Lemma taxonomy_without_classification_is_blank_witness :
  fetch_on sample_loads (RunCompleted 0 "empty") = Returned (Some blank_record).
Proof.
  apply (taxonomy_without_classification_is_blank sample_loads "empty"
           (PDict [("taxonomy", PDict [])]) []); reflexivity.
Defined.

(** Only the eight ranks of the list are read: two responses whose
    classifications agree on them give the same result, whatever other
    ranks they hold. *)
Theorem other_ranks_are_ignored
    (json_loads : string → option pyval) (stdout1 stdout2 : string)
    (taxonomy_json1 taxonomy_json2 : pyval) (classification1 classification2 : pydict) :
  json_loads stdout1 = Some taxonomy_json1 →
  json_loads stdout2 = Some taxonomy_json2 →
  classification_in taxonomy_json1 = Returned (PDict classification1) →
  classification_in taxonomy_json2 = Returned (PDict classification2) →
  (∀ rank, rank ∈ taxonomic_ranks →
     dict_get classification1 rank = dict_get classification2 rank) →
  fetch_on json_loads (RunCompleted 0 stdout1) = fetch_on json_loads (RunCompleted 0 stdout2).
Proof.
  intros Hloads1 Hloads2 Hcl1 Hcl2 Hagree.
  rewrite (fetch_on_decoded _ _ _ Hloads1), (fetch_on_decoded _ _ _ Hloads2).
  rewrite !extract_lineage_classification, Hcl1, Hcl2. cbn [result_bind].
  rewrite (for_ranks_agree (PDict classification1) (PDict classification2)); [done |].
  intros rank Hrank. unfold rank_values. simpl. by rewrite (Hagree rank Hrank).
Qed.

Lemma other_ranks_are_ignored_witness :
  fetch_on odd_loads (RunCompleted 0 "human") = fetch_on odd_loads (RunCompleted 0 "clade").
Proof.
  apply (other_ranks_are_ignored odd_loads "human" "clade"
           (response_with human_classification) (response_with clade_classification)
           human_classification clade_classification); try reflexivity.
  intros rank Hrank. unfold taxonomic_ranks in Hrank.
  repeat (apply elem_of_cons in Hrank as [-> | Hrank]; [reflexivity |]).
  by apply elem_of_nil in Hrank.
Defined.

(** ** The retry loop *)

Lemma attempts_of_snoc taxid log t :
  attempts_of taxid (log ++ [t])
  = (attempts_of taxid log + if decide (t = taxid) then 1 else 0)%nat.
Proof.
  unfold attempts_of. rewrite filter_app, length_app. f_equal.
  rewrite filter_cons, filter_nil. by destruct (decide (t = taxid)).
Qed.

Lemma attempts_of_snoc_ne taxid log t :
  t ≠ taxid → attempts_of taxid (log ++ [t]) = attempts_of taxid log.
Proof. intros. rewrite attempts_of_snoc, decide_False by done. lia. Qed.

Lemma attempts_of_pos taxid log : (0 < attempts_of taxid log)%nat → taxid ∈ log.
Proof.
  unfold attempts_of. intros Hpos.
  destruct (filter (λ t, t = taxid) log) as [| t l] eqn:Hf; simpl in Hpos; [lia |].
  assert (t ∈ filter (λ t, t = taxid) log) as Hin by (rewrite Hf; left).
  apply list_elem_of_filter in Hin as [-> ?]. done.
Qed.

Lemma taxid_of_set (info : pydict) taxid : taxid_of (dict_set info "TaxID" taxid) = taxid.
Proof. unfold taxid_of. by rewrite dict_get_set_eq. Qed.

Lemma taxid_of_exhausted taxid : taxid_of (exhausted_record taxid) = taxid.
Proof. reflexivity. Qed.

Section retry_loop.
Variable json_loads : string → option pyval.
Variable w : world.
Variable max_retries : Z.


(** The three ways through the body of the [for] loop. *)
Lemma visit_cases cf fd taxid retries log cf' fd' log' :
  visit json_loads w max_retries (cf, fd) (taxid, retries) log = (Returned (cf', fd'), log') →
  (retries < max_retries ∧ log' = log ++ [taxid] ∧ cf' = cf
     ∧ ∃ info, fetch_result json_loads w taxid (attempts_of taxid log) = Returned (Some info)
               ∧ fd' = fd ++ [dict_set info "TaxID" taxid])
  ∨ (retries < max_retries ∧ log' = log ++ [taxid] ∧ fd' = fd
     ∧ fetch_result json_loads w taxid (attempts_of taxid log) = Returned None
     ∧ cf' = dict_set cf taxid (retries + 1))
  ∨ (max_retries ≤ retries ∧ log' = log ∧ cf' = cf
     ∧ fd' = fd ++ [exhausted_record taxid]).
Proof.
  unfold visit, M_bind, M_ret, fetch_taxonomy_data, fetch_result.
  destruct (decide (retries < max_retries)) as [Hlt | Hge].
  - destruct (fetch_on json_loads (w taxid (attempts_of taxid log)))
      as [[[| kv info] |] |] eqn:Hfetch; intros [= <- <- <-].
    + by apply fetch_on_nonempty in Hfetch.
    + left. eauto 10.
    + right. left. eauto 10.
  - intros [= <- <- <-]. right. right. repeat split; [lia | done..].
Qed.

(** Case analysis on a visit that returned. *)
Ltac visit_by_cases H :=
  apply visit_cases in H
    as [(Hlt & -> & -> & info & Hfetch & ->)
       | [(Hlt & -> & -> & Hfetch & ->) | (Hge & -> & -> & ->)]].

Lemma pending_ext log log' item :
  attempts_of item.1 log' = attempts_of item.1 log →
  pending json_loads w max_retries log item →
  pending json_loads w max_retries log' item.
Proof. unfold pending. by intros ->. Qed.

Lemma settled_ext log log' record :
  attempts_of (taxid_of record) log' = attempts_of (taxid_of record) log →
  settled json_loads w max_retries log record → settled json_loads w max_retries log' record.
Proof. unfold settled. by intros ->. Qed.

Lemma settled_TaxID log record :
  settled json_loads w max_retries log record →
  dict_get record "TaxID" = Some (taxid_of record).
Proof.
  intros [(k & info & _ & _ & _ & _ & Hrec) | (Hrec & _)]; rewrite Hrec at 1.
  - apply dict_get_set_eq.
  - reflexivity.
Qed.

Lemma settled_keys log record :
  settled json_loads w max_retries log record → dict_keys record ⊆ lineage_columns ++ ["TaxID"].
Proof.
  unfold settled.
  intros [(k & info & _ & _ & _ & Hfetch & Hrec) | (Hrec & _)];
    revert Hrec; generalize (taxid_of record); intros t ->.
  - apply fetch_on_keys in Hfetch.
    pose proof (dict_set_keys_subseteq info "TaxID" t). set_solver.
  - apply (bool_decide_unpack _). by vm_compute.
Qed.

Lemma visit_inv ids cf todo fd taxid retries log cf' fd' log' :
  NoDup ids →
  loop_inv json_loads w max_retries ids (cf ++ (taxid, retries) :: todo) fd log →
  visit json_loads w max_retries (cf, fd) (taxid, retries) log = (Returned (cf', fd'), log') →
  loop_inv json_loads w max_retries ids (cf' ++ todo) fd' log'.
Proof.
  intros Hids (Hperm & Hpend & Hsett & Hlog) Hvisit.
  unfold dict_keys in Hperm. rewrite fmap_app, fmap_cons in Hperm. simpl in Hperm.
  assert (NoDup (map taxid_of fd ++ cf.*1 ++ taxid :: todo.*1)) as Hnd by by rewrite Hperm.
  apply NoDup_app in Hnd as (_ & Hfd & Hnd).
  apply NoDup_app in Hnd as (_ & Hcf & Hnd). apply NoDup_cons in Hnd as [Htodo _].
  assert (taxid ∉ map taxid_of fd) as Hfd' by (intros Hin; apply (Hfd _ Hin); set_solver).
  assert (taxid ∉ cf.*1) as Hcf' by (intros Hin; apply (Hcf _ Hin); set_solver).
  assert (taxid ∈ ids) as Hin by (rewrite <- Hperm; set_solver).
  apply Forall_app in Hpend as [Hpcf Hpend]. apply Forall_cons in Hpend as [Hp Hptodo].
  destruct Hp as (Hr & Hle & Hfails). simpl in Hr, Hle, Hfails.
  assert (∀ log1, (∀ t, t ≠ taxid → attempts_of t log1 = attempts_of t log) →
            Forall (pending json_loads w max_retries log1) cf
            ∧ Forall (pending json_loads w max_retries log1) todo
            ∧ Forall (settled json_loads w max_retries log1) fd)
    as Hothers.
  { intros log1 Hlog1. rewrite !Forall_forall in *. split; [| split].
    - intros item Hitem. apply (pending_ext log); [| by apply Hpcf].
      apply Hlog1. intros Heq. apply Hcf'. rewrite <- Heq.
      apply list_elem_of_fmap. by exists item.
    - intros item Hitem. apply (pending_ext log); [| by apply Hptodo].
      apply Hlog1. intros Heq. apply Htodo. rewrite <- Heq.
      apply list_elem_of_fmap. by exists item.
    - intros record Hrecord. apply (settled_ext log); [| by apply Hsett].
      apply Hlog1. intros Heq. apply Hfd'. rewrite <- Heq.
      apply list_elem_of_fmap. by exists record. }
  assert (∀ t, t ≠ taxid → attempts_of t (log ++ [taxid]) = attempts_of t log) as Hsnoc
    by (intros; by apply attempts_of_snoc_ne).
  assert (attempts_of taxid (log ++ [taxid]) = S (attempts_of taxid log)) as Hmine
    by (rewrite attempts_of_snoc, decide_True by done; lia).
  visit_by_cases Hvisit.
  - destruct (Hothers _ Hsnoc) as (H1 & H2 & H3). repeat split.
    + rewrite map_app. simpl. rewrite taxid_of_set. rewrite <- Hperm.
      unfold dict_keys. rewrite fmap_app, <- (assoc_L (++)). simpl.
      f_equiv. apply Permutation_middle.
    + by apply Forall_app.
    + apply Forall_app. split; [done |]. apply Forall_singleton.
      left. exists (attempts_of taxid log), info. rewrite !taxid_of_set.
      repeat split; [done | lia | done..].
    + intros t. rewrite elem_of_app, list_elem_of_singleton. intros [? | ->]; auto.
  - destruct (Hothers _ Hsnoc) as (H1 & H2 & H3). repeat split.
    + rewrite dict_set_fresh by done. rewrite <- Hperm.
      unfold dict_keys. rewrite !fmap_app, <- (assoc_L (++)). done.
    + rewrite dict_set_fresh by done. apply Forall_app. split; [| done].
      apply Forall_app. split; [done |]. apply Forall_singleton.
      repeat split; simpl; rewrite ?Hmine; [lia | lia |].
      intros k Hk. destruct (decide (k = attempts_of taxid log)) as [-> | ?]; [done |].
      apply Hfails. lia.
    + done.
    + intros t. rewrite elem_of_app, list_elem_of_singleton. intros [? | ->]; auto.
  - destruct (Hothers log) as (H1 & H2 & H3); [done |]. repeat split.
    + rewrite map_app. simpl. rewrite taxid_of_exhausted. rewrite <- Hperm.
      unfold dict_keys. rewrite fmap_app, <- (assoc_L (++)). simpl.
      f_equiv. apply Permutation_middle.
    + by apply Forall_app.
    + apply Forall_app. split; [done |]. apply Forall_singleton.
      right. rewrite !taxid_of_exhausted. repeat split; [lia | done].
    + done.
Qed.

Lemma for_items_inv ids todo : ∀ cf fd log cf' fd' log',
  NoDup ids →
  loop_inv json_loads w max_retries ids (cf ++ todo) fd log →
  for_items json_loads w max_retries todo (cf, fd) log = (Returned (cf', fd'), log') →
  loop_inv json_loads w max_retries ids cf' fd' log'.
Proof.
  induction todo as [| [taxid retries] todo IH]; intros cf fd log cf' fd' log' Hids Hinv Hfor.
  - injection Hfor as <- <- <-. by rewrite app_nil_r in Hinv.
  - cbn [for_items] in Hfor. unfold M_bind in Hfor.
    destruct (visit json_loads w max_retries (cf, fd) (taxid, retries) log)
      as [[[cf1 fd1] | e] log1] eqn:Hvisit; [| done].
    eapply IH; [done | | done]. by eapply visit_inv.
Qed.

Lemma while_failed_inv ids fuel : ∀ failed fd log fd' log',
  NoDup ids →
  loop_inv json_loads w max_retries ids failed fd log →
  while_failed json_loads w fuel max_retries failed fd log = Some (Returned fd', log') →
  loop_inv json_loads w max_retries ids [] fd' log'.
Proof.
  induction fuel as [| fuel IH]; intros failed fd log fd' log' Hids Hinv Hwhile;
    (destruct failed as [| item failed]; simpl in Hwhile; [by injection Hwhile as <- <- |]);
    [done |].
  change (for_items json_loads w max_retries (item :: failed) ([], fd) log)
    with (round json_loads w max_retries (item :: failed) fd log) in Hwhile.
  destruct (round json_loads w max_retries (item :: failed) fd log)
    as [[[cf fd1] | e] log1] eqn:Hround; [| done].
  eapply IH; [done | | done]. eapply for_items_inv; [done | | exact Hround]. done.
Qed.

Lemma initial_failed_fold taxids : ∀ d : list (pyval * Z),
  NoDup (dict_keys d) → Forall (λ item, item.2 = 0) d →
  let d' := fold_left (λ d taxid, dict_set d taxid 0) taxids d in
  NoDup (dict_keys d')
  ∧ (∀ t, t ∈ dict_keys d' ↔ t ∈ dict_keys d ∨ t ∈ taxids)
  ∧ Forall (λ item, item.2 = 0) d'.
Proof.
  induction taxids as [| taxid taxids IH]; simpl; intros d Hnd Hzero.
  - repeat split; [done | by left | | done]. intros [? | Hin]; [done |].
    by apply elem_of_nil in Hin.
  - destruct (IH (dict_set d taxid 0)) as (H1 & H2 & H3).
    + by apply dict_set_NoDup.
    + by apply dict_set_Forall.
    + repeat split; [done | | | done]; rewrite H2, dict_set_elem_of, elem_of_cons; tauto.
Qed.

Lemma initial_failed_spec taxids :
  NoDup (dict_keys (initial_failed taxids))
  ∧ (∀ t, t ∈ dict_keys (initial_failed taxids) ↔ t ∈ taxids)
  ∧ Forall (λ item, item.2 = 0) (initial_failed taxids).
Proof.
  destruct (initial_failed_fold taxids []) as (H1 & H2 & H3); [constructor.. |].
  repeat split; [done | | | done]; rewrite H2; [| tauto].
  intros [Hin | ?]; [| done]. by apply elem_of_nil in Hin.
Qed.

Lemma initial_inv taxids :
  loop_inv json_loads w max_retries
    (dict_keys (initial_failed taxids)) (initial_failed taxids) [] [].
Proof.
  destruct (initial_failed_spec taxids) as (_ & _ & Hzero).
  repeat split; [done | | constructor |].
  - eapply Forall_impl; [exact Hzero |]. intros [t r] Hr. simpl in Hr. subst r.
    unfold pending, attempts_of. simpl. split; [done |]. split; lia.
  - intros t Hin. by apply elem_of_nil in Hin.
Qed.

(** What [process_taxids] returns, when it returns: one record for each
    distinct identifier, every record settled json_loads w max_retries. *)
Lemma process_records_sound taxids fd log :
  process_records json_loads w taxids max_retries = Some (Returned fd, log) →
  NoDup (map taxid_of fd)
  ∧ (∀ t, t ∈ map taxid_of fd ↔ t ∈ taxids)
  ∧ Forall (settled json_loads w max_retries log) fd
  ∧ (∀ t, t ∈ log → t ∈ taxids).
Proof.
  intros Hrun. unfold process_records in Hrun.
  destruct (initial_failed_spec taxids) as (Hnd & Hkeys & _).
  apply (while_failed_inv (dict_keys (initial_failed taxids))) in Hrun;
    [| done | apply initial_inv].
  destruct Hrun as (Hperm & _ & Hsett & Hlog). rewrite app_nil_r in Hperm.
  repeat split; [by rewrite Hperm | | | done |].
  - rewrite Hperm. apply Hkeys.
  - rewrite Hperm. apply Hkeys.
  - intros t Hin. by apply Hkeys, Hlog.
Qed.

(** *** Termination *)


Lemma for_items_survivors items todo : ∀ cf fd log cf' fd' log',
  todo ⊆ items →
  Forall (survivor max_retries items) cf →
  for_items json_loads w max_retries todo (cf, fd) log = (Returned (cf', fd'), log') →
  Forall (survivor max_retries items) cf'
  ∧ (length cf' ≤ length cf + length todo)%nat
  ∧ dict_keys cf' ⊆ dict_keys cf ++ dict_keys todo.
Proof.
  induction todo as [| [taxid retries] todo IH]; intros cf fd log cf' fd' log' Hsub Hcf Hfor.
  - injection Hfor as <- <- <-. simpl. split; [done |]. split; [lia | set_solver].
  - cbn [for_items] in Hfor. unfold M_bind in Hfor.
    destruct (visit json_loads w max_retries (cf, fd) (taxid, retries) log)
      as [[[cf1 fd1] | e] log1] eqn:Hvisit; [| done].
    assert (Forall (survivor max_retries items) cf1 ∧ (length cf1 ≤ S (length cf))%nat
            ∧ dict_keys cf1 ⊆ taxid :: dict_keys cf) as (Hs1 & Hl1 & Hk1).
    { visit_by_cases Hvisit.
      - split; [done |]. split; [lia | set_solver].
      - split; [| split; [apply dict_set_length | apply dict_set_keys_subseteq]].
        apply dict_set_Forall; [done |]. exists retries. split; [| done].
        apply Hsub. left.
      - split; [done |]. split; [lia | set_solver]. }
    destruct (IH cf1 fd1 log1 cf' fd' log') as (H1 & H2 & H3); [set_solver | done..|].
    split; [done |]. split; [simpl; lia |]. unfold dict_keys in *. set_solver.
Qed.

Lemma while_failed_enough fuel : ∀ failed fd log,
  Forall (λ item, Z.max 0 (max_retries - item.2) < Z.of_nat fuel) failed →
  ∃ outcome, while_failed json_loads w fuel max_retries failed fd log = Some outcome.
Proof.
  induction fuel as [| fuel IH]; intros failed fd log Hbudget;
    (destruct failed as [| item failed]; [by eexists |]).
  - apply Forall_cons in Hbudget as [Hitem _]. lia.
  - cbn [while_failed].
    change (for_items json_loads w max_retries (item :: failed) ([], fd) log)
      with (round json_loads w max_retries (item :: failed) fd log).
    destruct (round json_loads w max_retries (item :: failed) fd log)
      as [[[cf fd1] | e] log1] eqn:Hround; [| by eexists].
    apply IH.
    apply (for_items_survivors (item :: failed)) in Hround as (Hsurv & _); [| done | constructor].
    eapply Forall_impl; [exact Hsurv |]. intros [t r'] (r & Hin & Hlt & Hr'). simpl in *.
    rewrite Forall_forall in Hbudget. specialize (Hbudget _ Hin). simpl in Hbudget. lia.
Qed.

Lemma while_failed_more_fuel fuel : ∀ fuel' failed fd log outcome,
  (fuel ≤ fuel')%nat →
  while_failed json_loads w fuel max_retries failed fd log = Some outcome →
  while_failed json_loads w fuel' max_retries failed fd log = Some outcome.
Proof.
  induction fuel as [| fuel IH]; intros fuel' failed fd log outcome Hle Hrun;
    (destruct failed as [| item failed]; [by destruct fuel' |]); [done |].
  destruct fuel' as [| fuel']; [lia |].
  cbn [while_failed] in *.
  destruct (round json_loads w max_retries (item :: failed) fd log)
    as [[[cf fd1] | e] log1]; [| done].
  apply IH; [lia | done].
Qed.

Lemma process_records_terminates taxids :
  ∃ outcome, process_records json_loads w taxids max_retries = Some outcome.
Proof.
  apply while_failed_enough. destruct (initial_failed_spec taxids) as (_ & _ & Hzero).
  eapply Forall_impl; [exact Hzero |]. intros [t r] Hr. simpl in *. subst r.
  unfold round_budget. lia.
Qed.

(** *** No lookup escapes, no round json_loads w max_retries escapes *)

Lemma for_items_returns todo : ∀ cf fd log,
  (∀ t k, ∃ r, fetch_result json_loads w t k = Returned r) →
  ∃ cf' fd' log',
    for_items json_loads w max_retries todo (cf, fd) log = (Returned (cf', fd'), log').
Proof.
  induction todo as [| [taxid retries] todo IH]; intros cf fd log Hret; [by repeat eexists |].
  cbn [for_items]. unfold M_bind.
  assert (∃ cf1 fd1 log1,
            visit json_loads w max_retries (cf, fd) (taxid, retries) log
            = (Returned (cf1, fd1), log1)) as (cf1 & fd1 & log1 & ->).
  { unfold visit, M_bind, M_ret, fetch_taxonomy_data.
    destruct (decide (retries < max_retries)); [| by repeat eexists].
    destruct (Hret taxid (attempts_of taxid log)) as [r Hr]. unfold fetch_result in Hr.
    rewrite Hr. destruct r as [[| kv info] |]; by repeat eexists. }
  by apply IH.
Qed.

Lemma while_failed_returns fuel : ∀ failed fd log outcome,
  (∀ t k, ∃ r, fetch_result json_loads w t k = Returned r) →
  while_failed json_loads w fuel max_retries failed fd log = Some outcome →
  ∃ fd' log', outcome = (Returned fd', log').
Proof.
  induction fuel as [| fuel IH]; intros failed fd log outcome Hret Hrun;
    (destruct failed as [| item failed]; cbn [while_failed] in Hrun;
     [injection Hrun as <-; by repeat eexists |]);
    [done |].
  destruct (for_items_returns (item :: failed) [] fd log Hret) as (cf & fd1 & log1 & Hround).
  unfold round in Hrun. rewrite Hround in Hrun. by eapply IH.
Qed.
End retry_loop.

Lemma NoDup_fmap_eq {A B} (f : A → B) (l : list A) x y :
  NoDup (map f l) → x ∈ l → y ∈ l → f x = f y → x = y.
Proof.
  induction l as [| a l IH]; simpl; intros Hnd Hx Hy Hf; [by apply elem_of_nil in Hx |].
  apply NoDup_cons in Hnd as [Ha Hnd].
  apply elem_of_cons in Hx as [-> | Hx]; apply elem_of_cons in Hy as [-> | Hy]; auto.
  - exfalso. apply Ha. rewrite Hf. apply list_elem_of_fmap. by exists y.
  - exfalso. apply Ha. rewrite <- Hf. apply list_elem_of_fmap. by exists x.
Qed.

(** When no lookup lets an exception escape, [process_taxids] returns, with
    exactly one record for each distinct identifier it was given. *)
Lemma process_records_complete json_loads w taxids max_retries :
  (∀ t k, ∃ r, fetch_result json_loads w t k = Returned r) →
  ∃ fd log,
    process_records json_loads w taxids max_retries = Some (Returned fd, log)
    ∧ NoDup (map taxid_of fd)
    ∧ ∀ t, t ∈ map taxid_of fd ↔ t ∈ taxids.
Proof.
  intros Hret.
  destruct (process_records_terminates json_loads w max_retries taxids) as [outcome Hrun].
  destruct (while_failed_returns _ _ _ _ _ _ _ _ Hret Hrun) as (fd & log & ->).
  exists fd, log. split; [done |].
  apply process_records_sound in Hrun as (? & ? & _). done.
Qed.

(** C5: for every identifier list, every [max_retries] and every world,
    the round loop terminates.  [process_taxids] has an outcome within
    [max_retries + 1] rounds, more rounds change nothing, and an identifier
    that stays pending after a round had retries left and has used one
    more, so it is pending for at most [max_retries] failed rounds. *)
Theorem round_loop_terminates
    (json_loads : string → option pyval) (w : world) (taxids : list pyval) (max_retries : Z) :
  (∃ outcome, process_records json_loads w taxids max_retries = Some outcome)
  ∧ (∀ fuel, (round_budget max_retries ≤ fuel)%nat →
       while_failed json_loads w fuel max_retries (initial_failed taxids) [] []
       = process_records json_loads w taxids max_retries)
  ∧ (∀ failed fd log cf fd' log',
       round json_loads w max_retries failed fd log = (Returned (cf, fd'), log') →
       ∀ t r', (t, r') ∈ cf →
         ∃ r, (t, r) ∈ failed ∧ r < max_retries ∧ r' = r + 1).
Proof.
  destruct (process_records_terminates json_loads w max_retries taxids) as [outcome Hrun].
  split; [by exists outcome |]. split.
  - intros fuel Hfuel. rewrite Hrun. by eapply while_failed_more_fuel.
  - intros failed fd log cf fd' log' Hround t r' Hin.
    apply (for_items_survivors _ _ _ failed) in Hround as (Hsurv & _); [| done | constructor].
    rewrite Forall_forall in Hsurv. apply (Hsurv _ Hin).
Qed.

Lemma round_loop_terminates_witness :
  (∃ outcome, process_records sample_loads world_nonzero_exit [PInt 0] 3 = Some outcome)
  ∧ ∃ r, (PInt 0, r) ∈ [(PInt 0, 0)] ∧ r < 3 ∧ 1 = r + 1.
Proof.
  split.
  - exact (proj1 (round_loop_terminates sample_loads world_nonzero_exit [PInt 0] 3)).
  - apply (proj2 (proj2 (round_loop_terminates sample_loads world_nonzero_exit [PInt 0] 3))
             [(PInt 0, 0)] [] [] [(PInt 0, 1)] [] [PInt 0]).
    + reflexivity.
    + left.
Defined.

(** C9, as the code has it: from one round to the next the number of
    pending identifiers never grows, and no identifier enters the pending
    set. *)
Theorem pending_count_never_grows
    (json_loads : string → option pyval) (w : world) (max_retries : Z)
    (failed_taxids current_failed : list (pyval * Z)) (final_data final_data' : list pydict)
    (log log' : list pyval) :
  round json_loads w max_retries failed_taxids final_data log
  = (Returned (current_failed, final_data'), log') →
  (length current_failed ≤ length failed_taxids)%nat
  ∧ dict_keys current_failed ⊆ dict_keys failed_taxids.
Proof.
  intros Hround.
  apply (for_items_survivors _ _ _ failed_taxids) in Hround as (_ & Hlen & Hkeys);
    [| done | constructor].
  split; [simpl in Hlen; lia | set_solver].
Qed.

Lemma pending_count_never_grows_witness :
  (length [(PInt 0, 1)] ≤ length [(PInt 0, 0)])%nat
  ∧ dict_keys [(PInt 0, 1)] ⊆ dict_keys [(PInt 0, 0)].
Proof.
  apply (pending_count_never_grows sample_loads world_nonzero_exit 3
           [(PInt 0, 0)] [(PInt 0, 1)] [] [] [] [PInt 0]).
  reflexivity.
Defined.

(** C9 as stated fails: when the only pending identifier fails again, the
    pending set has one entry before the round and one after it. *)
Lemma pending_count_can_stay_equal :
  initial_failed [PInt 0] = [(PInt 0, 0)]
  ∧ round sample_loads world_nonzero_exit 3 [(PInt 0, 0)] [] []
    = (Returned ([(PInt 0, 1)], []), [PInt 0])
  ∧ ¬ (length [(PInt 0, 1)] < length [(PInt 0, 0)])%nat.
Proof. repeat split. simpl. lia. Qed.

(** ** The records of [final_data] *)

Lemma record_of_taxid json_loads w max_retries taxids fd log taxid :
  process_records json_loads w taxids max_retries = Some (Returned fd, log) →
  taxid ∈ taxids →
  ∃ record,
    record ∈ fd ∧ taxid_of record = taxid
    ∧ (∀ record', record' ∈ fd → taxid_of record' = taxid → record' = record)
    ∧ settled json_loads w max_retries log record.
Proof.
  intros Hrun Hin. apply process_records_sound in Hrun as (Hnd & Hcover & Hsett & _).
  apply Hcover, list_elem_of_fmap in Hin as (record & -> & Hrecord).
  exists record. repeat split; [done | |].
  - intros record' Hrecord' Heq. by apply (NoDup_fmap_eq taxid_of fd).
  - rewrite Forall_forall in Hsett. by apply Hsett.
Qed.

(** C2, as the code has it: an identifier whose every lookup fails is
    looked up [max_retries] times and then gets one record, whose id field
    and name field hold the string ['None'] for each of the ranks kingdom,
    phylum, class, order, family, genus and species. *)
Theorem always_failing_gets_None_record
    (json_loads : string → option pyval) (w : world) (taxids : list pyval) (max_retries : Z)
    (taxid : pyval) (final_data : list pydict) (log : list pyval) :
  process_records json_loads w taxids max_retries = Some (Returned final_data, log) →
  taxid ∈ taxids →
  (∀ k, fetch_result json_loads w taxid k = Returned None) →
  ∃ record,
    record ∈ final_data
    ∧ taxid_of record = taxid
    ∧ (∀ record', record' ∈ final_data → taxid_of record' = taxid → record' = record)
    ∧ Z.of_nat (attempts_of taxid log) = Z.max 0 max_retries
    ∧ ∀ rank, rank ∈ ["kingdom"; "phylum"; "class"; "order"; "family"; "genus"; "species"] →
        dict_get record (rank +:+ "_id") = Some (PStr "None")
        ∧ dict_get record (rank +:+ "_name") = Some (PStr "None").
Proof.
  intros Hrun Hin Hfails.
  destruct (record_of_taxid _ _ _ _ _ _ _ Hrun Hin) as (record & Hrecord & Htaxid & Huniq & Hsett).
  exists record. do 3 (split; [done |]).
  unfold settled in Hsett. rewrite Htaxid in Hsett.
  destruct Hsett as [(k & info & _ & _ & _ & Hok & _) | (-> & Hattempts & _)].
  - rewrite Hfails in Hok. done.
  - split; [done |]. intros rank Hrank.
    repeat (apply elem_of_cons in Hrank as [-> | Hrank]; [by vm_compute |]).
    by apply elem_of_nil in Hrank.
Qed.

Lemma always_failing_gets_None_record_witness :
  ∃ record,
    record ∈ [exhausted_record (PInt 0)]
    ∧ taxid_of record = PInt 0
    ∧ (∀ record', record' ∈ [exhausted_record (PInt 0)] → taxid_of record' = PInt 0 →
         record' = record)
    ∧ Z.of_nat (attempts_of (PInt 0) [PInt 0; PInt 0; PInt 0]) = Z.max 0 3
    ∧ ∀ rank, rank ∈ ["kingdom"; "phylum"; "class"; "order"; "family"; "genus"; "species"] →
        dict_get record (rank +:+ "_id") = Some (PStr "None")
        ∧ dict_get record (rank +:+ "_name") = Some (PStr "None").
Proof.
  apply (always_failing_gets_None_record sample_loads world_nonzero_exit [PInt 0] 3 (PInt 0)
           [exhausted_record (PInt 0)] [PInt 0; PInt 0; PInt 0]).
  - reflexivity.
  - left.
  - intros k. reflexivity.
Defined.

(** C2 as stated fails: the record of an identifier whose lookups all fail
    holds ['None'], not ["unknown"], and it has 14 lineage fields, none of
    them for superkingdom. *)
Lemma always_failing_record_is_not_all_unknown :
  process_records sample_loads world_nonzero_exit [PInt 0] 3
  = Some (Returned [exhausted_record (PInt 0)], [PInt 0; PInt 0; PInt 0])
  ∧ dict_get (exhausted_record (PInt 0)) "kingdom_id" = Some (PStr "None")
  ∧ dict_get (exhausted_record (PInt 0)) "kingdom_id" ≠ Some (PStr "unknown")
  ∧ dict_get (exhausted_record (PInt 0)) "superkingdom_id" = None
  ∧ dict_get (exhausted_record (PInt 0)) "superkingdom_name" = None
  ∧ length (filter (λ key, key ∈ lineage_columns) (dict_keys (exhausted_record (PInt 0))))
    = 14%nat.
Proof. repeat split; try reflexivity. discriminate. Qed.

(** C6: when the lookup of an identifier first succeeds on its attempt
    number [k + 1], with [k + 1 ≤ max_retries], the record of that
    identifier is the record that lookup returned, filed under the
    identifier, and the identifier is looked up exactly [k + 1] times. *)
Theorem first_success_is_kept
    (json_loads : string → option pyval) (w : world) (taxids : list pyval) (max_retries : Z)
    (taxid : pyval) (k : nat) (info : pydict) (final_data : list pydict) (log : list pyval) :
  process_records json_loads w taxids max_retries = Some (Returned final_data, log) →
  taxid ∈ taxids →
  (∀ j info', (j < k)%nat → fetch_result json_loads w taxid j ≠ Returned (Some info')) →
  fetch_result json_loads w taxid k = Returned (Some info) →
  Z.of_nat (S k) ≤ max_retries →
  ∃ record,
    record ∈ final_data
    ∧ taxid_of record = taxid
    ∧ (∀ record', record' ∈ final_data → taxid_of record' = taxid → record' = record)
    ∧ record = dict_set info "TaxID" taxid
    ∧ (∀ key, key ≠ "TaxID" → dict_get record key = dict_get info key)
    ∧ attempts_of taxid log = S k.
Proof.
  intros Hrun Hin Hearlier Hok Hk.
  destruct (record_of_taxid _ _ _ _ _ _ _ Hrun Hin) as (record & Hrecord & Htaxid & Huniq & Hsett).
  exists record. do 3 (split; [done |]).
  unfold settled in Hsett. rewrite Htaxid in Hsett.
  destruct Hsett as [(k' & info' & Hattempts & _ & Hfails & Hok' & ->) | (_ & Hattempts & Hfails)].
  - assert (k' = k) as ->.
    { destruct (Nat.lt_trichotomy k' k) as [Hlt | [-> | Hgt]]; [| done |].
      - by destruct (Hearlier k' info' Hlt).
      - rewrite (Hfails k Hgt) in Hok. done. }
    rewrite Hok in Hok'. injection Hok' as <-.
    repeat split; [| done]. intros key Hkey. by apply dict_get_set_ne.
  - rewrite Hfails in Hok by lia. done.
Qed.

Lemma first_success_is_kept_witness :
  ∃ record,
    record ∈ [dict_set human_record "TaxID" (PInt 9606)]
    ∧ taxid_of record = PInt 9606
    ∧ (∀ record', record' ∈ [dict_set human_record "TaxID" (PInt 9606)] →
         taxid_of record' = PInt 9606 → record' = record)
    ∧ record = dict_set human_record "TaxID" (PInt 9606)
    ∧ (∀ key, key ≠ "TaxID" → dict_get record key = dict_get human_record key)
    ∧ attempts_of (PInt 9606) [PInt 9606; PInt 9606] = 2%nat.
Proof.
  apply (first_success_is_kept sample_loads world_flaky [PInt 9606] 3 (PInt 9606) 1
           human_record [dict_set human_record "TaxID" (PInt 9606)] [PInt 9606; PInt 9606]).
  - reflexivity.
  - left.
  - intros j info' Hj. assert (j = 0%nat) as -> by lia. discriminate.
  - reflexivity.
  - simpl. lia.
Defined.

(** C3 at the failing input: when a lookup cannot start the [datasets]
    executable, the [UnboundLocalError] that leaves [fetch_taxonomy_data]
    also leaves [process_taxids], and no record is returned. *)
Theorem process_taxids_propagates_UnboundLocalError (json_loads : string → option pyval) :
  process_taxids json_loads world_no_executable [PInt 9606] 3
  = Some (Raised UnboundLocalError, [PInt 9606]).
Proof. reflexivity. Qed.

(** ** Tables *)

Lemma col_index_lookup name cols i : col_index name cols = Some i → cols !! i = Some name.
Proof.
  revert i. induction cols as [| c cols IH]; simpl; intros i Hi; [done |].
  destruct (decide (c = name)) as [-> | ?].
  - by injection Hi as <-.
  - destruct (col_index name cols) as [i' |]; simpl in Hi; [| done].
    injection Hi as <-. by apply IH.
Qed.

Lemma col_index_is_Some name cols : name ∈ cols → is_Some (col_index name cols).
Proof.
  induction cols as [| c cols IH]; simpl; intros Hin; [by apply elem_of_nil in Hin |].
  destruct (decide (c = name)); [by eexists |].
  apply elem_of_cons in Hin as [-> | Hin]; [done |].
  destruct (IH Hin) as [i ->]. by eexists.
Qed.

Lemma elem_of_unique l t : t ∈ unique l ↔ t ∈ l.
Proof.
  induction l as [| x l IH]; simpl; [done |].
  rewrite !elem_of_cons, list_elem_of_filter, IH.
  destruct (decide (t = x)); naive_solver.
Qed.

Lemma NoDup_unique l : NoDup (unique l).
Proof.
  induction l as [| x l IH]; simpl; [constructor |].
  apply NoDup_cons. split.
  - rewrite list_elem_of_filter. naive_solver.
  - by apply NoDup_filter.
Qed.

Lemma elem_of_dropna l t : t ∈ dropna l ↔ t ∈ l ∧ isna t = false.
Proof. unfold dropna. rewrite list_elem_of_filter. tauto. Qed.

Lemma filter_key_NoDup {A} (f : A → pyval) (l : list A) (k : pyval) :
  NoDup (map f l) →
  (filter (λ x, f x = k) l = [] ∧ k ∉ map f l)
  ∨ (∃ x, filter (λ x, f x = k) l = [x] ∧ x ∈ l ∧ f x = k).
Proof.
  induction l as [| a l IH]; simpl; intros Hnd.
  - left. split; [done |]. apply not_elem_of_nil.
  - apply NoDup_cons in Hnd as [Ha Hnd]. rewrite filter_cons.
    destruct (decide (f a = k)) as [Heq | Hne].
    + right. exists a. split; [| split; [left | done]].
      destruct (IH Hnd) as [[-> _] | (x & _ & Hx & Hfx)]; [done |].
      exfalso. apply Ha. rewrite Heq, <- Hfx. apply list_elem_of_fmap. by exists x.
    + destruct (IH Hnd) as [[-> Hk] | (x & -> & Hx & Hfx)].
      * left. split; [done |]. rewrite not_elem_of_cons. split; [congruence | done].
      * right. exists x. split; [done |]. split; [by right | done].
Qed.

(** *** [pd.DataFrame(final_data)] *)

Lemma add_keys_spec record : ∀ cols,
  NoDup cols →
  NoDup (add_keys cols record)
  ∧ ∀ c, c ∈ add_keys cols record ↔ c ∈ cols ∨ c ∈ dict_keys record.
Proof.
  unfold add_keys. induction (dict_keys record) as [| k keys IH]; simpl; intros cols Hnd.
  - split; [done |]. intros c. split; [by left |]. intros [? | Hin]; [done |].
    by apply elem_of_nil in Hin.
  - destruct (decide (k ∈ cols)) as [Hin | Hnin].
    + destruct (IH cols Hnd) as [H1 H2]. split; [done |].
      intros c. rewrite H2, elem_of_cons. naive_solver.
    + destruct (IH (cols ++ [k])) as [H1 H2].
      { apply NoDup_app. split; [done |]. split; [| apply NoDup_singleton].
        intros x Hx. rewrite list_elem_of_singleton. by intros ->. }
      split; [done |]. intros c.
      rewrite H2, elem_of_app, list_elem_of_singleton, elem_of_cons. naive_solver.
Qed.

Lemma frame_columns_spec records : ∀ cols,
  NoDup cols →
  NoDup (fold_left add_keys records cols)
  ∧ ∀ c, c ∈ fold_left add_keys records cols
         ↔ c ∈ cols ∨ ∃ record, record ∈ records ∧ c ∈ dict_keys record.
Proof.
  induction records as [| record records IH]; simpl; intros cols Hnd.
  - split; [done |]. intros c. split; [by left |]. intros [? | (r & Hr & _)]; [done |].
    by apply elem_of_nil in Hr.
  - destruct (add_keys_spec record cols Hnd) as [H1 H2].
    destruct (IH _ H1) as [H3 H4]. split; [done |]. intros c. rewrite H4, H2. split.
    + intros [[? | ?] | (r & Hr & Hc)]; [by left | right; exists record; split; [left | done] |].
      right. exists r. split; [by right | done].
    + intros [? | (r & Hr & Hc)]; [by left; left |].
      apply elem_of_cons in Hr as [-> | Hr]; [by left; right |]. right. by exists r.
Qed.

Lemma DataFrame_of_records_rows records :
  rows (DataFrame_of_records records)
  = map (row_of_record (columns (DataFrame_of_records records))) records.
Proof. reflexivity. Qed.

Lemma row_of_record_length cols record : length (row_of_record cols record) = length cols.
Proof. unfold row_of_record. by rewrite length_map. Qed.

Lemma row_of_record_key cols j record :
  cols !! j = Some "TaxID" → cell j (row_of_record cols record) = taxid_of record.
Proof.
  intros Hj. unfold cell, row_of_record, taxid_of.
  by rewrite list_lookup_fmap, Hj.
Qed.

(** *** The left merge *)

Lemma not_elem_of_delete_NoDup {A} (l : list A) j x :
  NoDup l → l !! j = Some x → x ∉ delete j l.
Proof.
  intros Hnd Hj. rewrite delete_take_drop.
  rewrite <- (take_drop_middle l j x Hj) in Hnd.
  apply NoDup_app in Hnd as (_ & Hdisj & Hnd). apply NoDup_cons in Hnd as [Hx _].
  rewrite not_elem_of_app. split; [| done].
  intros Hin. apply (Hdisj _ Hin). left.
Qed.

Lemma elem_of_delete_elem_of {A} (l : list A) j x : x ∈ delete j l → x ∈ l.
Proof.
  rewrite delete_take_drop, elem_of_app.
  rewrite <- (take_drop j l) at 3. rewrite elem_of_app.
  intros [Hin | Hin]; [by left | right].
  rewrite <- (take_drop 1 (drop j l)), drop_drop, elem_of_app. right.
  by replace (j + 1)%nat with (S j) by lia.
Qed.

Lemma flat_map_singletons {A B} (f : A → list B) (g : A → B) (l : list A) :
  (∀ x, f x = [g x]) → flat_map f l = map g l.
Proof. intros Hf. induction l as [| x l IH]; simpl; [done |]. by rewrite Hf, IH. Qed.

Lemma suffixed_id left right on suffix c :
  (∀ c, c ∈ columns left → c ∈ columns right → c = on) →
  suffixed left right on suffix c = c.
Proof. intros Hdisj. unfold suffixed. rewrite decide_False; [done |]. naive_solver. Qed.

Lemma merge_left_unique_keys left right on i j :
  col_index on (columns left) = Some i →
  col_index on (columns right) = Some j →
  (∀ c, c ∈ columns left → c ∈ columns right → c = on) →
  NoDup (map (cell j) (rows right)) →
  merge_left left right on
  = Returned {| columns := columns left ++ delete j (columns right);
                rows := map (λ lrow, lrow ++ right_part right j (cell i lrow)) (rows left) |}.
Proof.
  intros Hi Hj Hdisj Hnd. unfold merge_left. rewrite Hi, Hj. do 2 f_equal.
  - f_equal; (etrans; [| apply map_id]); apply map_ext; intros c; by apply suffixed_id.
  - apply flat_map_singletons. intros lrow. unfold right_part.
    destruct (filter_key_NoDup (cell j) (rows right) (cell i lrow) Hnd)
      as [[-> _] | (rrow & -> & _)]; done.
Qed.

Lemma right_part_miss right j k :
  k ∉ map (cell j) (rows right) →
  right_part right j k = replicate (length (delete j (columns right))) PNaN.
Proof.
  intros Hk. unfold right_part.
  destruct (filter (λ rrow, cell j rrow = k) (rows right)) as [| rrow l] eqn:Hf; [done |].
  exfalso. apply Hk.
  assert (rrow ∈ filter (λ rrow, cell j rrow = k) (rows right)) as Hin by (rewrite Hf; left).
  apply list_elem_of_filter in Hin as [<- Hin]. apply list_elem_of_fmap. by exists rrow.
Qed.

Lemma right_part_length right j k :
  well_formed right → length (right_part right j k) = length (delete j (columns right)).
Proof.
  intros Hwf. unfold right_part.
  destruct (filter (λ rrow, cell j rrow = k) (rows right)) as [| rrow l] eqn:Hf.
  - apply length_replicate.
  - assert (rrow ∈ filter (λ rrow, cell j rrow = k) (rows right)) as Hin by (rewrite Hf; left).
    apply list_elem_of_filter in Hin as [_ Hin].
    unfold well_formed in Hwf. rewrite Forall_forall in Hwf. specialize (Hwf _ Hin).
    rewrite !delete_take_drop, !length_app, !length_take, !length_drop. lia.
Qed.

(** *** [fillna] *)

Lemma zip_with_keep {A B} (g : A → B → B) (cols : list A) : ∀ row : list B,
  length row = length cols →
  (∀ c x, c ∈ cols → g c x = x) →
  zip_with g cols row = row.
Proof.
  induction cols as [| c cols IH]; intros [| x row] Hlen Hg; simpl in *; try done.
  rewrite Hg by left. f_equal. apply IH; [lia |]. intros c' x' Hc'. apply Hg. by right.
Qed.

Lemma zip_with_map {A B} (g : A → B → B) (h : B → B) (cols : list A) : ∀ row : list B,
  length row = length cols →
  (∀ c x, c ∈ cols → g c x = h x) →
  zip_with g cols row = map h row.
Proof.
  induction cols as [| c cols IH]; intros [| x row] Hlen Hg; simpl in *; try done.
  rewrite Hg by left. f_equal. apply IH; [lia |]. intros c' x' Hc'. apply Hg. by right.
Qed.

(** *** The table [main] writes *)

Lemma DataFrame_of_records_well_formed records : well_formed (DataFrame_of_records records).
Proof.
  unfold well_formed. rewrite DataFrame_of_records_rows. apply Forall_forall.
  intros row Hrow. apply list_elem_of_fmap in Hrow as (record & -> & _).
  apply row_of_record_length.
Qed.

Lemma DataFrame_of_records_columns records :
  NoDup (columns (DataFrame_of_records records))
  ∧ ∀ c, c ∈ columns (DataFrame_of_records records)
         ↔ ∃ record, record ∈ records ∧ c ∈ dict_keys record.
Proof.
  destruct (frame_columns_spec records []) as [H1 H2]; [constructor |].
  split; [done |]. intros c. simpl. rewrite H2. split; [| by right].
  intros [Hin | ?]; [| done]. by apply elem_of_nil in Hin.
Qed.

Lemma DataFrame_of_records_keys records j :
  columns (DataFrame_of_records records) !! j = Some "TaxID" →
  map (cell j) (rows (DataFrame_of_records records)) = map taxid_of records.
Proof.
  intros Hj. rewrite DataFrame_of_records_rows, map_map.
  apply map_ext. intros record. by apply row_of_record_key.
Qed.

Lemma main_written_explicit json_loads w df_input out log :
  well_formed df_input →
  no_lineage_label df_input →
  main json_loads w df_input = Some (Written out, log) →
  ∃ i j fd,
    col_index "TaxID" (columns df_input) = Some i
    ∧ col_index "TaxID" (columns (DataFrame_of_records fd)) = Some j
    ∧ process_records json_loads w (unique (dropna (map (cell i) (rows df_input)))) 3
      = Some (Returned fd, log)
    ∧ columns out = columns df_input ++ delete j (columns (DataFrame_of_records fd))
    ∧ rows out
      = map (λ row, row ++ map fill_None (right_part (DataFrame_of_records fd) j (cell i row)))
            (rows df_input).
Proof.
  intros Hwf Hfresh Hmain. unfold main, column in Hmain.
  destruct (col_index "TaxID" (columns df_input)) as [i |] eqn:Hi; [| done].
  cbn [mbind option_bind] in Hmain.
  destruct (unique (dropna (map (cell i) (rows df_input)))) as [| t0 U] eqn:HU; [done |].
  rewrite <- HU in Hmain. unfold process_taxids in Hmain.
  destruct (process_records json_loads w (unique (dropna (map (cell i) (rows df_input)))) 3)
    as [[[fd | e] log1] |] eqn:Hrun; [| done..].
  destruct (merge_left df_input (DataFrame_of_records fd) "TaxID") as [df_output | e] eqn:Hmerge;
    [| done].
  injection Hmain as <- <-.
  pose proof (process_records_sound _ _ _ _ _ _ Hrun) as (Hnd & Hcover & Hsett & Hlog).
  destruct (DataFrame_of_records_columns fd) as [Hcols_nd Hcols].
  set (right := DataFrame_of_records fd) in *.
  assert (∃ j, col_index "TaxID" (columns right) = Some j) as [j Hj].
  { unfold merge_left in Hmerge. rewrite Hi in Hmerge.
    destruct (col_index "TaxID" (columns right)); [by eexists | done]. }
  pose proof (col_index_lookup _ _ _ Hj) as Hjl.
  assert (∀ c, c ∈ columns df_input → c ∈ columns right → c = "TaxID") as Hdisj.
  { intros c Hl Hr. apply Hcols in Hr as (record & Hrecord & Hc).
    rewrite Forall_forall in Hsett. apply Hsett, settled_keys in Hrecord.
    apply Hrecord in Hc. apply elem_of_app in Hc as [Hc | Hc].
    - by destruct (Hfresh c Hl).
    - by apply list_elem_of_singleton in Hc. }
  rewrite (merge_left_unique_keys _ _ _ i j) in Hmerge; [| done | done | done |].
  2:{ unfold right. by rewrite DataFrame_of_records_keys. }
  injection Hmerge as <-.
  exists i, j, fd. do 4 (split; [done |]).
  cbn [rows fillna columns]. rewrite map_map. apply map_ext_in. intros lrow Hlrow.
  apply list_elem_of_In in Hlrow.
  unfold well_formed in Hwf. rewrite Forall_forall in Hwf. specialize (Hwf _ Hlrow).
  rewrite zip_with_app by done. f_equal.
  - apply zip_with_keep; [done |]. intros c x Hc.
    rewrite decide_False; [done |]. rewrite list_elem_of_filter. tauto.
  - apply zip_with_map.
    + apply right_part_length, DataFrame_of_records_well_formed.
    + intros c x Hc. rewrite decide_True; [done |].
      rewrite list_elem_of_filter, elem_of_app. split; [| by right].
      intros Hl. pose proof (elem_of_delete_elem_of _ _ _ Hc) as Hr.
      rewrite (Hdisj c Hl Hr) in Hc.
      by apply (not_elem_of_delete_NoDup (columns right) j "TaxID").
Qed.

Lemma main_hands_over json_loads w df_input taxid_column t :
  (∀ t k, ∃ r, fetch_result json_loads w t k = Returned r) →
  column df_input "TaxID" = Some taxid_column →
  t ∈ taxid_column → isna t = false →
  ∃ out log, main json_loads w df_input = Some (Written out, log).
Proof.
  intros Hret Hcol Ht Hna. unfold main. rewrite Hcol.
  assert (t ∈ unique (dropna taxid_column)) as HU
    by by rewrite elem_of_unique, elem_of_dropna.
  destruct (unique (dropna taxid_column)) as [| t0 U] eqn:HeqU;
    [by apply elem_of_nil in HU |].
  rewrite <- HeqU in *. unfold process_taxids.
  destruct (process_records_complete json_loads w (unique (dropna taxid_column)) 3 Hret)
    as (fd & log & Hrun & _ & Hcover).
  rewrite Hrun.
  pose proof (process_records_sound _ _ _ _ _ _ Hrun) as (_ & _ & Hsett & _).
  apply Hcover in HU. apply list_elem_of_fmap in HU as (record & _ & Hrecord).
  assert ("TaxID" ∈ columns (DataFrame_of_records fd)) as Hkey.
  { apply DataFrame_of_records_columns. exists record. split; [done |].
    rewrite Forall_forall in Hsett. apply Hsett in Hrecord.
    eapply dict_get_Some_keys, settled_TaxID, Hrecord. }
  apply col_index_is_Some in Hkey as [j Hj].
  unfold column in Hcol.
  destruct (col_index "TaxID" (columns df_input)) as [i |] eqn:Hi; [| done].
  unfold merge_left. rewrite Hi, Hj. by repeat eexists.
Qed.

(** ** Lemmas on [main] *)

Lemma column_TaxID df i taxid_column :
  col_index "TaxID" (columns df) = Some i →
  column df "TaxID" = Some taxid_column →
  taxid_column = map (cell i) (rows df).
Proof. unfold column. intros ->. cbn [mbind option_bind]. congruence. Qed.

Lemma settled_attempts json_loads w log record :
  settled json_loads w 3 log record →
  (1 ≤ attempts_of (taxid_of record) log ≤ 3)%nat.
Proof. intros [(k & info & -> & Hk & _) | (_ & Hattempts & _)]; lia. Qed.

Lemma main_lookups json_loads w taxids fd log :
  process_records json_loads w taxids 3 = Some (Returned fd, log) →
  (∀ t, t ∈ log ↔ t ∈ taxids) ∧ ∀ t, (attempts_of t log ≤ 3)%nat.
Proof.
  intros Hrun.
  assert (∀ t, t ∈ taxids → (1 ≤ attempts_of t log ≤ 3)%nat) as Hbounds.
  { intros t Ht.
    destruct (record_of_taxid _ _ _ _ _ _ _ Hrun Ht) as (record & _ & <- & _ & Hsett).
    by eapply settled_attempts. }
  pose proof (process_records_sound _ _ _ _ _ _ Hrun) as (_ & _ & _ & Hlog).
  split.
  - intros t. split; [apply Hlog |]. intros Ht. apply attempts_of_pos.
    specialize (Hbounds t Ht). lia.
  - intros t. destruct (attempts_of t log) as [| n] eqn:Hn; [lia |].
    rewrite <- Hn. apply Hbounds, Hlog, attempts_of_pos. lia.
Qed.

Lemma col_index_None name cols : col_index name cols = None ↔ name ∉ cols.
Proof.
  induction cols as [| c cols IH]; simpl.
  - split; [intros _; apply not_elem_of_nil | done].
  - rewrite not_elem_of_cons. destruct (decide (c = name)) as [-> | Hne].
    + split; [done | tauto].
    + destruct (col_index name cols); simpl.
      * split; [done |]. intros [_ H]. by apply IH in H.
      * split; [| done]. intros _. split; [congruence | by apply IH].
Qed.

Lemma unique_nil l : unique l = [] ↔ l = [].
Proof. by destruct l. Qed.

Lemma dropna_nil l : dropna l = [] ↔ Forall (λ t, isna t = true) l.
Proof.
  unfold dropna. induction l as [| t l IH]; [by split; [constructor |] |].
  rewrite filter_cons, Forall_cons. destruct (decide (isna t = false)) as [Hna | Hna].
  - split; [done |]. intros [? _]. congruence.
  - rewrite IH. split; [| tauto]. intros ?. split; [| done]. by destruct (isna t).
Qed.

Lemma right_part_hit right j rrow :
  NoDup (map (cell j) (rows right)) →
  rrow ∈ rows right →
  right_part right j (cell j rrow) = delete j rrow.
Proof.
  intros Hnd Hin. unfold right_part.
  destruct (filter_key_NoDup (cell j) (rows right) (cell j rrow) Hnd)
    as [[_ Hmiss] | (x & -> & Hx & Hkey)].
  - destruct Hmiss. apply list_elem_of_fmap. by exists rrow.
  - by rewrite (NoDup_fmap_eq (cell j) (rows right) x rrow).
Qed.

Lemma records_right_part fd j record :
  columns (DataFrame_of_records fd) !! j = Some "TaxID" →
  NoDup (map taxid_of fd) →
  record ∈ fd →
  right_part (DataFrame_of_records fd) j (taxid_of record)
  = row_of_record (delete j (columns (DataFrame_of_records fd))) record.
Proof.
  intros Hj Hnd Hin.
  rewrite <- (row_of_record_key (columns (DataFrame_of_records fd)) j record Hj).
  rewrite right_part_hit.
  - unfold row_of_record. symmetry. apply list_fmap_delete.
  - by rewrite DataFrame_of_records_keys.
  - rewrite DataFrame_of_records_rows. apply list_elem_of_fmap. by exists record.
Qed.

(** The row [main] writes for a row whose identifier has a record. *)
Lemma main_row_of_record json_loads w df_input taxid_column out log :
  well_formed df_input →
  no_lineage_label df_input →
  column df_input "TaxID" = Some taxid_column →
  main json_loads w df_input = Some (Written out, log) →
  ∃ fd,
    process_records json_loads w (unique (dropna taxid_column)) 3 = Some (Returned fd, log)
    ∧ ("TaxID" ∉ drop (length (columns df_input)) (columns out))
    ∧ drop (length (columns df_input)) (columns out) ⊆ lineage_columns
    ∧ ∀ n row record,
        rows df_input !! n = Some row →
        taxid_column !! n = Some (taxid_of record) →
        record ∈ fd →
        rows out !! n
        = Some (row ++ map (λ c, fill_None (default PNaN (dict_get record c)))
                           (drop (length (columns df_input)) (columns out))).
Proof.
  intros Hwf Hfresh Hcol Hmain.
  destruct (main_written_explicit _ _ _ _ _ Hwf Hfresh Hmain)
    as (i & j & fd & Hi & Hj & Hrun & Hcols & Hrows).
  pose proof (column_TaxID _ _ _ Hi Hcol) as ->.
  pose proof (col_index_lookup _ _ _ Hj) as Hjl.
  pose proof (process_records_sound _ _ _ _ _ _ Hrun) as (Hnd & _ & Hsett & _).
  destruct (DataFrame_of_records_columns fd) as [Hcols_nd Hcols_in].
  exists fd. split; [done |].
  rewrite Hcols, drop_app_length.
  assert ("TaxID" ∉ delete j (columns (DataFrame_of_records fd))) as Hkey
    by by apply not_elem_of_delete_NoDup.
  split; [done |]. split.
  - intros c Hc. pose proof (elem_of_delete_elem_of _ _ _ Hc) as Hc'.
    apply Hcols_in in Hc' as (record & Hrecord & Hc').
    rewrite Forall_forall in Hsett. apply Hsett, settled_keys in Hrecord.
    apply Hrecord, elem_of_app in Hc' as [? | Hc']; [done |].
    apply list_elem_of_singleton in Hc' as ->. done.
  - intros n row record Hrow Ht Hrecord.
    change (map (cell i) (rows df_input)) with (cell i <$> rows df_input) in Ht.
    rewrite list_lookup_fmap, Hrow in Ht. injection Ht as Ht.
    rewrite Hrows.
    change (map ?f (rows df_input)) with (f <$> rows df_input).
    rewrite list_lookup_fmap, Hrow. simpl. do 2 f_equal.
    rewrite Ht, records_right_part by done. unfold row_of_record. by rewrite map_map.
Qed.

Lemma exhausted_cell taxid c :
  c ∈ lineage_columns →
  fill_None (default PNaN (dict_get (exhausted_record taxid) c)) = PStr "None".
Proof.
  intros Hc. unfold lineage_columns in Hc. cbn in Hc.
  repeat (apply elem_of_cons in Hc as [-> | Hc]; [reflexivity |]).
  by apply elem_of_nil in Hc.
Qed.

(** *** The order of [final_data] and the columns of the output *)

Lemma fetched_shape_NoDup record : fetched_shape record → NoDup (dict_keys record).
Proof. intros ->. apply (bool_decide_unpack _). by vm_compute. Qed.

Lemma exhausted_keys taxid :
  dict_keys (exhausted_record taxid) = drop 2 lineage_columns ++ ["TaxID"].
Proof. reflexivity. Qed.

Lemma exhausted_not_fetched taxid : ¬ fetched_shape (exhausted_record taxid).
Proof. unfold fetched_shape. rewrite exhausted_keys. by vm_compute. Qed.

Section final_data_order.
Variable json_loads : string → option pyval.
Variable w : world.
Variable max_retries : Z.

Lemma for_items_order n todo : ∀ cf fd log cf' fd' log',
  Forall (λ item, item.2 = n) todo →
  Forall (λ item, item.2 = n + 1) cf →
  fetched_first fd →
  (n < max_retries → Forall fetched_shape fd) →
  for_items json_loads w max_retries todo (cf, fd) log = (Returned (cf', fd'), log') →
  Forall (λ item, item.2 = n + 1) cf'
  ∧ fetched_first fd'
  ∧ (n < max_retries → Forall fetched_shape fd').
Proof.
  induction todo as [| [taxid retries] todo IH];
    intros cf fd log cf' fd' log' Htodo Hcf Hfirst Hall Hfor.
  - by injection Hfor as <- <- <-.
  - apply Forall_cons in Htodo as [Hr Htodo]. simpl in Hr. subst retries.
    cbn [for_items] in Hfor. unfold M_bind in Hfor.
    destruct (visit json_loads w max_retries (cf, fd) (taxid, n) log)
      as [[[cf1 fd1] | e] log1] eqn:Hvisit; [| done].
    apply (IH _ _ _ _ _ _ Htodo) in Hfor; [done | | |];
      apply visit_cases in Hvisit
        as [(Hlt & -> & -> & info & Hfetch & ->)
           | [(Hlt & -> & -> & Hfetch & ->) | (Hge & -> & -> & ->)]];
      try done; try lia.
    + by apply dict_set_Forall.
    + exists (fd ++ [dict_set info "TaxID" taxid]), []. rewrite app_nil_r.
      split; [done |]. split; [| constructor].
      apply Forall_app. split; [by apply Hall |]. apply Forall_singleton.
      unfold fetched_shape. apply fetch_on_keys_exact in Hfetch.
      rewrite dict_set_keys, Hfetch. rewrite decide_False by apply TaxID_not_lineage. done.
    + destruct Hfirst as (F & E & -> & HF & HE).
      exists F, (E ++ [exhausted_record taxid]). rewrite (assoc_L (++)).
      split; [done |]. split; [done |].
      apply Forall_app. split; [done |]. apply Forall_singleton. by eexists.
    + intros _. apply Forall_app. split; [by apply Hall |]. apply Forall_singleton.
      unfold fetched_shape. apply fetch_on_keys_exact in Hfetch.
      rewrite dict_set_keys, Hfetch. rewrite decide_False by apply TaxID_not_lineage. done.
Qed.

Lemma while_failed_order fuel : ∀ n failed fd log fd' log',
  Forall (λ item, item.2 = n) failed →
  fetched_first fd →
  (n < max_retries → Forall fetched_shape fd) →
  while_failed json_loads w fuel max_retries failed fd log = Some (Returned fd', log') →
  fetched_first fd'.
Proof.
  induction fuel as [| fuel IH]; intros n failed fd log fd' log' Hn Hfirst Hall Hrun;
    (destruct failed as [| item failed]; cbn [while_failed] in Hrun;
     [by injection Hrun as <- <- |]); [done |].
  destruct (round json_loads w max_retries (item :: failed) fd log)
    as [[[cf fd1] | e] log1] eqn:Hround; [| done].
  apply (for_items_order n) in Hround as (Hcf & Hfirst1 & Hall1);
    [| done | constructor | done | done].
  apply (IH (n + 1) cf fd1 log1 fd' log'); [done | done | | done].
  intros Hlt. apply Hall1. lia.
Qed.

Lemma process_records_order taxids fd log :
  process_records json_loads w taxids max_retries = Some (Returned fd, log) →
  fetched_first fd.
Proof.
  intros Hrun. unfold process_records in Hrun.
  apply (while_failed_order _ 0) in Hrun; [done | | | by constructor].
  - apply initial_failed_spec.
  - exists [], []. by repeat constructor.
Qed.
End final_data_order.

Lemma add_keys_absorb cols record : dict_keys record ⊆ cols → add_keys cols record = cols.
Proof.
  unfold add_keys. induction (dict_keys record) as [| k keys IH]; simpl; intros Hsub; [done |].
  rewrite decide_True by (apply Hsub; left). apply IH. intros c Hc. apply Hsub. by right.
Qed.

Lemma add_keys_first record : NoDup (dict_keys record) → add_keys [] record = dict_keys record.
Proof.
  unfold add_keys.
  assert (∀ cols, NoDup (cols ++ dict_keys record) →
            fold_left (λ cols k, if decide (k ∈ cols) then cols else cols ++ [k])
                      (dict_keys record) cols = cols ++ dict_keys record) as Hgen.
  { induction (dict_keys record) as [| k keys IH]; simpl; intros cols Hcols.
    - by rewrite app_nil_r.
    - apply NoDup_app in Hcols as (Hc & Hdisj & Hk).
      rewrite decide_False by (intros Hin; apply (Hdisj _ Hin); left).
      rewrite IH; [by rewrite <- (assoc_L (++)) |].
      rewrite <- (assoc_L (++)). apply NoDup_app. split; [done |]. split; [| done].
      intros c Hin. by apply Hdisj. }
  intros Hnd. by apply (Hgen []).
Qed.

Lemma frame_columns_head record records :
  NoDup (dict_keys record) →
  Forall (λ record', dict_keys record' ⊆ dict_keys record) records →
  columns (DataFrame_of_records (record :: records)) = dict_keys record.
Proof.
  intros Hnd Hsub. cbn [DataFrame_of_records columns fold_left]. rewrite add_keys_first by done.
  induction Hsub as [| record' records Hsub' _ IH]; simpl; [done |].
  by rewrite add_keys_absorb.
Qed.

Lemma exhausted_keys_subseteq taxid record :
  fetched_shape record → dict_keys (exhausted_record taxid) ⊆ dict_keys record.
Proof. intros ->. apply (bool_decide_unpack _). by vm_compute. Qed.


Lemma frame_columns_cases fd :
  fetched_first fd →
  fd ≠ [] →
  columns (DataFrame_of_records fd) = lineage_columns ++ ["TaxID"]
  ∨ columns (DataFrame_of_records fd) = drop 2 lineage_columns ++ ["TaxID"].
Proof.
  intros (F & E & -> & HF & HE) Hne. destruct F as [| first F].
  - destruct E as [| record E]; [done |]. right.
    apply Forall_cons in HE as [[t ->] HE]. rewrite app_nil_l.
    rewrite <- (exhausted_keys t). apply frame_columns_head.
    + rewrite exhausted_keys. apply (bool_decide_unpack _). by vm_compute.
    + eapply Forall_impl; [exact HE |]. by intros r [t' ->].
  - left. apply Forall_cons in HF as [Hfirst HF].
    rewrite <- Hfirst. apply frame_columns_head; [by apply fetched_shape_NoDup |].
    apply Forall_app. split.
    + eapply Forall_impl; [exact HF |]. intros r Hr. unfold fetched_shape in *.
      by rewrite Hr, Hfirst.
    + eapply Forall_impl; [exact HE |]. intros r [t' ->]. by apply exhausted_keys_subseteq.
Qed.

(** The new columns of a table [main] writes. *)
Lemma main_new_columns json_loads w df_input out log :
  well_formed df_input →
  no_lineage_label df_input →
  main json_loads w df_input = Some (Written out, log) →
  ∃ extra,
    columns out = columns df_input ++ extra
    ∧ (extra = lineage_columns ∨ extra = drop 2 lineage_columns).
Proof.
  intros Hwf Hfresh Hmain.
  destruct (main_written_explicit _ _ _ _ _ Hwf Hfresh Hmain)
    as (i & j & fd & Hi & Hj & Hrun & -> & _).
  pose proof (process_records_order _ _ _ _ _ _ Hrun) as Hfirst.
  assert (fd ≠ []) as Hne by (intros ->; vm_compute in Hj; done).
  eexists. split; [done |].
  destruct (frame_columns_cases fd Hfirst Hne) as [Hcolumns | Hcolumns];
    rewrite Hcolumns in Hj |- *; vm_compute in Hj; injection Hj as <-; [by left | by right].
Qed.

Lemma joined_of_record extra record :
  joined extra record (map (λ c, fill_None (default PNaN (dict_get record c))) extra).
Proof.
  split; [by rewrite length_map |]. intros p c Hp.
  change (map ?f extra) with (f <$> extra). rewrite list_lookup_fmap, Hp. simpl.
  split; [by intros s -> | by intros ->].
Qed.

(** The table [main] writes, row by row: the row of the input followed by
    the lineage cells of its identifier, which are joined from the record
    of that identifier. *)
Lemma main_joined json_loads w df_input taxid_column out log :
  well_formed df_input →
  no_lineage_label df_input →
  column df_input "TaxID" = Some taxid_column →
  main json_loads w df_input = Some (Written out, log) →
  ∃ fd extra lineage,
    process_records json_loads w (unique (dropna taxid_column)) 3 = Some (Returned fd, log)
    ∧ columns out = columns df_input ++ extra
    ∧ (extra = lineage_columns ∨ extra = drop 2 lineage_columns)
    ∧ rows out = zip_with (λ row t, row ++ lineage t) (rows df_input) taxid_column
    ∧ (∀ t, length (lineage t) = length extra)
    ∧ (∀ record, record ∈ fd →
         lineage (taxid_of record)
         = map (λ c, fill_None (default PNaN (dict_get record c))) extra)
    ∧ (∀ t, t ∉ map taxid_of fd → lineage t = replicate (length extra) (PStr "None")).
Proof.
  intros Hwf Hfresh Hcol Hmain.
  destruct (main_new_columns _ _ _ _ _ Hwf Hfresh Hmain) as (extra & Hextra & Hcases).
  destruct (main_written_explicit _ _ _ _ _ Hwf Hfresh Hmain)
    as (i & j & fd & Hi & Hj & Hrun & Hcols & Hrows).
  pose proof (column_TaxID _ _ _ Hi Hcol) as ->.
  pose proof (col_index_lookup _ _ _ Hj) as Hjl.
  pose proof (process_records_sound _ _ _ _ _ _ Hrun) as (Hnd & _ & _ & _).
  assert (extra = delete j (columns (DataFrame_of_records fd))) as Hdel.
  { rewrite Hcols in Hextra. by apply app_inv_head in Hextra. }
  exists fd, extra, (λ k, map fill_None (right_part (DataFrame_of_records fd) j k)).
  do 3 (split; [done |]). split; [| split; [| split]].
  - rewrite Hrows. change (map (cell i) (rows df_input)) with (cell i <$> rows df_input).
    by rewrite zip_with_fmap_r, zip_with_diag.
  - intros t. rewrite length_map, Hdel.
    apply right_part_length, DataFrame_of_records_well_formed.
  - intros record Hrecord. rewrite records_right_part by done.
    unfold row_of_record. by rewrite map_map, Hdel.
  - intros t Ht. rewrite right_part_miss.
    + rewrite Hdel. clear.
      induction (length (delete j (columns (DataFrame_of_records fd)))) as [| n IH];
        simpl; [done |]. by rewrite IH.
    + by rewrite DataFrame_of_records_keys.
Qed.

(** ** End to end *)

(** C7 at the failing input: when every lookup of the only identifier
    fails, the table written has 14 new columns, kingdom to species; the
    two superkingdom columns are missing. *)
Theorem all_lookups_failed_gives_14_columns (json_loads : string → option pyval) :
  main json_loads world_nonzero_exit {| columns := ["TaxID"]; rows := [[PInt 0]] |}
  = Some (Written
            {| columns := ["TaxID"; "kingdom_id"; "kingdom_name"; "phylum_id"; "phylum_name";
                           "class_id"; "class_name"; "order_id"; "order_name";
                           "family_id"; "family_name"; "genus_id"; "genus_name";
                           "species_id"; "species_name"];
               rows := [PInt 0 :: replicate 14 (PStr "None")] |},
          [PInt 0; PInt 0; PInt 0]).
Proof. reflexivity. Qed.

(** C8: the identifiers looked up are the distinct identifiers of the
    [TaxID] column, each at most three times however often it occurs, and
    [process_taxids] returns one record for each of them.  The table
    written has the columns of the input followed by the sixteen lineage
    columns, or by the fourteen from kingdom to species; every row of the
    input is in it, in order, followed by lineage cells that depend on its
    identifier only and are joined from the record of that identifier: one
    cell per new column, a string of the record as it is, ['None'] for a
    key the record lacks.  For the column [9606, 9606, 10090] two
    identifiers are looked up, the output has three rows and the two rows
    of 9606 carry the same lineage cells, those of the record of 9606. *)
Theorem duplicates_are_looked_up_once
    (json_loads : string → option pyval) (w : world) (df_input out : DataFrame)
    (taxid_column log : list pyval) :
  well_formed df_input →
  no_lineage_label df_input →
  column df_input "TaxID" = Some taxid_column →
  main json_loads w df_input = Some (Written out, log) →
  unique log ≡ₚ unique (dropna taxid_column)
  ∧ (∀ t, (attempts_of t log ≤ 3)%nat)
  ∧ length (rows out) = length (rows df_input)
  ∧ ∃ (final_data : list pydict) (extra : list string) (lineage : pyval → list pyval),
      process_records json_loads w (unique (dropna taxid_column)) 3
      = Some (Returned final_data, log)
      ∧ map taxid_of final_data ≡ₚ unique (dropna taxid_column)
      ∧ columns out = columns df_input ++ extra
      ∧ (extra = lineage_columns ∨ extra = drop 2 lineage_columns)
      ∧ rows out = zip_with (λ row t, row ++ lineage t) (rows df_input) taxid_column
      ∧ (∀ record, record ∈ final_data → joined extra record (lineage (taxid_of record)))
      ∧ (taxid_column = [PInt 9606; PInt 9606; PInt 10090] →
           unique log ≡ₚ [PInt 9606; PInt 10090]
           ∧ ∃ r0 r1 r2,
               rows df_input = [r0; r1; r2]
               ∧ rows out = [r0 ++ lineage (PInt 9606); r1 ++ lineage (PInt 9606);
                             r2 ++ lineage (PInt 10090)]).
Proof.
  intros Hwf Hfresh Hcol Hmain.
  destruct (main_joined _ _ _ _ _ _ Hwf Hfresh Hcol Hmain)
    as (fd & extra & lineage & Hrun & Hcols & Hcases & Hrows & _ & Hrec & _).
  destruct (main_lookups _ _ _ _ _ Hrun) as [Hlog Hbound].
  pose proof (process_records_sound _ _ _ _ _ _ Hrun) as (Hnd & Hcover & _ & _).
  assert (unique log ≡ₚ unique (dropna taxid_column)) as Hperm.
  { apply NoDup_Permutation; [apply NoDup_unique.. |].
    intros t. by rewrite elem_of_unique, Hlog. }
  assert (length taxid_column = length (rows df_input)) as Hlen.
  { unfold column in Hcol. destruct (col_index "TaxID" (columns df_input)); [| done].
    injection Hcol as <-. by rewrite length_map. }
  split; [done |]. split; [done |].
  split; [rewrite Hrows, length_zip_with; lia |].
  exists fd, extra, lineage. split; [done |]. split.
  { apply NoDup_Permutation; [done | apply NoDup_unique | done]. }
  do 3 (split; [done |]). split.
  - intros record Hrecord. rewrite (Hrec record Hrecord). apply joined_of_record.
  - intros Hscenario. rewrite Hscenario in Hperm. split; [exact Hperm |].
    rewrite Hrows, Hscenario. rewrite Hscenario in Hlen.
    destruct (rows df_input) as [| r0 [| r1 [| r2 [| r3 rest]]]]; try done.
    by exists r0, r1, r2.
Qed.

(** C10, amended: when every [TaxID] of the table is missing, [main] exits
    with status 1 without a lookup and writes no table.  Otherwise, in the
    table it writes, a row whose [TaxID] is missing has caused no lookup
    and is at its place, followed by the string ['None'] in every lineage
    column; there are sixteen of these columns, or the fourteen from
    kingdom to species. *)
Theorem missing_taxid_rows_are_kept
    (json_loads : string → option pyval) (w : world) (df_input : DataFrame)
    (taxid_column : list pyval) :
  well_formed df_input →
  no_lineage_label df_input →
  column df_input "TaxID" = Some taxid_column →
  (Forall (λ t, isna t = true) taxid_column →
     main json_loads w df_input = Some (SysExit 1, []))
  ∧ ∀ out log,
      main json_loads w df_input = Some (Written out, log) →
      (∃ t, t ∈ taxid_column ∧ isna t = false)
      ∧ (∀ t, isna t = true → t ∉ log)
      ∧ length (rows out) = length (rows df_input)
      ∧ (columns out = columns df_input ++ lineage_columns
         ∨ columns out = columns df_input ++ drop 2 lineage_columns)
      ∧ ∀ n row t,
          rows df_input !! n = Some row →
          taxid_column !! n = Some t →
          isna t = true →
          rows out !! n
          = Some (row ++ replicate (length (columns out) - length (columns df_input))
                                   (PStr "None")).
Proof.
  intros Hwf Hfresh Hcol. split.
  { intros Hall. unfold main. rewrite Hcol.
    apply dropna_nil in Hall. by rewrite Hall. }
  intros out log Hmain.
  destruct (main_joined _ _ _ _ _ _ Hwf Hfresh Hcol Hmain)
    as (fd & extra & lineage & Hrun & Hcols & Hcases & Hrows & _ & _ & Hmiss).
  destruct (main_lookups _ _ _ _ _ Hrun) as [Hlog _].
  pose proof (process_records_sound _ _ _ _ _ _ Hrun) as (_ & Hcover & _ & _).
  assert (∀ t, isna t = true → t ∉ unique (dropna taxid_column)) as Hna.
  { intros t Ht. rewrite elem_of_unique, elem_of_dropna. intros [_ ?]. congruence. }
  assert (length taxid_column = length (rows df_input)) as Hlen.
  { unfold column in Hcol. destruct (col_index "TaxID" (columns df_input)); [| done].
    injection Hcol as <-. by rewrite length_map. }
  split; [| split; [| split; [| split]]].
  - unfold main in Hmain. rewrite Hcol in Hmain.
    destruct (unique (dropna taxid_column)) as [| t U] eqn:HU; [done |].
    exists t. apply elem_of_dropna, elem_of_unique. rewrite HU. left.
  - intros t Ht. rewrite Hlog. by apply Hna.
  - rewrite Hrows, length_zip_with. lia.
  - rewrite Hcols. destruct Hcases as [-> | ->]; [by left | by right].
  - intros n row t Hrow Ht Hisna.
    rewrite Hrows, lookup_zip_with, Hrow. simpl. rewrite Ht. simpl. do 2 f_equal.
    rewrite Hmiss.
    + f_equal. rewrite Hcols, length_app. lia.
    + rewrite Hcover. by apply Hna.
Qed.

Lemma sample_tables_have_no_lineage_label :
  no_lineage_label scenario_table ∧ no_lineage_label gap_table.
Proof.
  split; intros c Hc;
    (repeat (apply elem_of_cons in Hc as [-> | Hc];
             [apply (bool_decide_unpack _); by vm_compute |]));
    by apply elem_of_nil in Hc.
Qed.

Lemma duplicates_are_looked_up_once_witness :
  unique [PInt 9606; PInt 10090] ≡ₚ [PInt 9606; PInt 10090]
  ∧ length (rows scenario_output) = length (rows scenario_table)
  ∧ ∃ lineage : pyval → list pyval,
      rows scenario_output
      = [[PInt 9606; PStr "a"] ++ lineage (PInt 9606);
         [PInt 9606; PStr "b"] ++ lineage (PInt 9606);
         [PInt 10090; PStr "c"] ++ lineage (PInt 10090)]
      ∧ length (lineage (PInt 9606)) = 16%nat
      ∧ lineage (PInt 9606) !! 15%nat = Some (PStr "Homo sapiens").
Proof.
  destruct (duplicates_are_looked_up_once sample_loads world_ok scenario_table scenario_output
              [PInt 9606; PInt 9606; PInt 10090] [PInt 9606; PInt 10090])
    as (_ & _ & Hlen & fd & extra & lineage
        & Hrun & _ & Hcols & _ & _ & Hjoined & Hscenario).
  - repeat constructor.
  - apply sample_tables_have_no_lineage_label.
  - reflexivity.
  - reflexivity.
  - destruct (Hscenario eq_refl) as (Hperm & r0 & r1 & r2 & Hin & Hout).
    injection Hin as <- <- <-.
    vm_compute in Hcols. injection Hcols as <-.
    vm_compute in Hrun. injection Hrun as <-.
    destruct (Hjoined (dict_set human_record "TaxID" (PInt 9606))) as [Hcount Hcells];
      [left |].
    split; [exact Hperm |]. split; [exact Hlen |].
    exists lineage. split; [exact Hout |]. split; [exact Hcount |].
    apply (proj1 (Hcells 15%nat "species_name" eq_refl) "Homo sapiens"). reflexivity.
Defined.

Lemma missing_taxid_rows_are_kept_witness :
  (PNaN ∉ [PStr "Homo sapiens"])
  ∧ (columns gap_output = columns gap_table ++ lineage_columns
     ∨ columns gap_output = columns gap_table ++ drop 2 lineage_columns)
  ∧ rows gap_output !! 1%nat
    = Some ([PNaN; PStr "b"]
            ++ replicate (length (columns gap_output) - length (columns gap_table))
                         (PStr "None")).
Proof.
  destruct (missing_taxid_rows_are_kept sample_loads world_ok gap_table
              [PStr "Homo sapiens"; PNaN]) as [_ Hwritten].
  - repeat constructor.
  - apply sample_tables_have_no_lineage_label.
  - reflexivity.
  - destruct (Hwritten gap_output [PStr "Homo sapiens"] eq_refl)
      as (_ & Hlog & _ & Hcols & Hrow).
    split; [| split].
    + apply Hlog. reflexivity.
    + exact Hcols.
    + apply (Hrow 1%nat [PNaN; PStr "b"] PNaN); reflexivity.
Defined.

(** C10 as stated fails on a table in which every [TaxID] is missing: its
    rows are in no output table, [main] exits with status 1 at line 180
    and nothing is written. *)
Lemma all_missing_table_has_no_output :
  column all_missing_table "TaxID" = Some [PNaN; PNaN]
  ∧ main sample_loads world_ok all_missing_table = Some (SysExit 1, [])
  ∧ ¬ ∃ out log, main sample_loads world_ok all_missing_table = Some (Written out, log).
Proof. repeat split. by intros (out & log & ?). Qed.

(** ** More on the retry loop *)

Lemma dict_set_same {K V} `{EqDecision K} (d : list (K * V)) k v :
  dict_get d k = Some v → dict_set d k v = d.
Proof.
  induction d as [| [k0 v0] d IH]; simpl; [done |].
  destruct (decide (k0 = k)) as [-> | ?]; [by intros [= ->] |].
  intros Hget. by rewrite IH.
Qed.

Lemma dict_get_zero (d : list (pyval * Z)) t :
  Forall (λ item, item.2 = 0) d → t ∈ dict_keys d → dict_get d t = Some 0.
Proof.
  unfold dict_keys. induction 1 as [| [t0 r0] d Hr _ IH]; simpl; intros Hin.
  - by apply elem_of_nil in Hin.
  - simpl in Hr. subst r0. destruct (decide (t0 = t)); [done |].
    apply elem_of_cons in Hin as [-> | Hin]; [done | by apply IH].
Qed.

Lemma filter_all {A} (P : A → Prop) `{!∀ x, Decision (P x)} (l : list A) :
  (∀ x, x ∈ l → P x) → filter P l = l.
Proof.
  induction l as [| a l IH]; intros HP; [done |].
  rewrite filter_cons, decide_True by (apply HP; left).
  f_equal. apply IH. intros x Hx. apply HP. by right.
Qed.

Lemma initial_failed_from taxids : ∀ d : list (pyval * Z),
  Forall (λ item, item.2 = 0) d →
  fold_left (λ d taxid, dict_set d taxid 0) taxids d
  = d ++ map (λ t, (t, 0)) (filter (λ t, t ∉ dict_keys d) (unique taxids)).
Proof.
  induction taxids as [| x taxids IH]; intros d Hzero; cbn [fold_left unique].
  - by rewrite filter_nil, app_nil_r.
  - rewrite IH by by apply dict_set_Forall. rewrite filter_cons.
    destruct (decide (x ∈ dict_keys d)) as [Hin | Hnin].
    + rewrite decide_False by tauto.
      rewrite dict_set_same by by apply dict_get_zero. do 2 f_equal.
      rewrite list_filter_filter. apply list_filter_iff. intros t. split; [| tauto].
      intros Ht. split; [done |]. congruence.
    + rewrite decide_True by done. rewrite dict_set_fresh by done.
      rewrite <- (assoc_L (++)). cbn [map app]. do 3 f_equal.
      rewrite list_filter_filter. apply list_filter_iff. intros t.
      unfold dict_keys. rewrite fmap_app, elem_of_app.
      change ([(x, 0)].*1) with [x]. rewrite list_elem_of_singleton.
      split; [intros Ht; split; [tauto | intros ->; tauto] | tauto].
Qed.

Lemma initial_failed_unique taxids :
  initial_failed taxids = map (λ t, (t, 0)) (unique taxids).
Proof.
  unfold initial_failed. rewrite initial_failed_from by constructor. simpl.
  f_equal. apply filter_all. intros t _. apply not_elem_of_nil.
Qed.

Lemma dict_keys_zero (l : list pyval) : dict_keys (map (λ t, (t, 0)) l) = l.
Proof.
  induction l as [| t l IH]; [done |].
  cbn [map]. by rewrite dict_keys_cons, IH.
Qed.

Lemma unique_NoDup_id l : NoDup l → unique l = l.
Proof.
  induction 1 as [| x l Hx _ IH]; simpl; [done |]. rewrite IH. f_equal.
  apply filter_all. intros y Hy ->. done.
Qed.

Lemma unique_idemp l : unique (unique l) = unique l.
Proof. apply unique_NoDup_id, NoDup_unique. Qed.

Section retry_loop_more.
Variable json_loads : string → option pyval.
Variable w : world.
Variable max_retries : Z.

Lemma visit_log st item log res log' :
  visit json_loads w max_retries st item log = (res, log') →
  log' = log ++ (if decide (item.2 < max_retries) then [item.1] else []).
Proof.
  destruct st as [cf fd], item as [taxid retries].
  unfold visit, M_bind, M_ret, fetch_taxonomy_data. simpl.
  destruct (decide (retries < max_retries)).
  - destruct (fetch_on json_loads (w taxid (attempts_of taxid log))) as [[[| kv info] |] |];
      by intros [= <- <-].
  - intros [= <- <-]. by rewrite app_nil_r.
Qed.

Lemma for_items_log todo : ∀ st log st' log',
  for_items json_loads w max_retries todo st log = (Returned st', log') →
  log' = log ++ dict_keys (filter (λ item, item.2 < max_retries) todo).
Proof.
  induction todo as [| item todo IH]; intros st log st' log' Hfor.
  - injection Hfor as <- <-. by rewrite app_nil_r.
  - cbn [for_items] in Hfor. unfold M_bind in Hfor.
    destruct (visit json_loads w max_retries st item log) as [[st1 | e] log1] eqn:Hvisit;
      [| done].
    apply visit_log in Hvisit as ->. apply IH in Hfor as ->.
    rewrite filter_cons. destruct (decide (item.2 < max_retries)).
    + by rewrite <- (assoc_L (++)).
    + by rewrite app_nil_r.
Qed.

Lemma for_items_log_prefix todo : ∀ st log res log',
  for_items json_loads w max_retries todo st log = (res, log') → log `prefix_of` log'.
Proof.
  induction todo as [| item todo IH]; intros st log res log' Hfor.
  - by injection Hfor as <- <-.
  - cbn [for_items] in Hfor. unfold M_bind in Hfor.
    destruct (visit json_loads w max_retries st item log) as [[st1 | e] log1] eqn:Hvisit.
    + apply visit_log in Hvisit as ->. apply IH in Hfor.
      etrans; [| exact Hfor]. by apply prefix_app_r.
    + injection Hfor as <- <-. apply visit_log in Hvisit as ->. by apply prefix_app_r.
Qed.

Lemma while_failed_log_prefix fuel : ∀ failed fd log res log',
  while_failed json_loads w fuel max_retries failed fd log = Some (res, log') →
  log `prefix_of` log'.
Proof.
  induction fuel as [| fuel IH]; intros failed fd log res log' Hrun;
    (destruct failed as [| item failed]; cbn [while_failed] in Hrun;
     [by injection Hrun as <- <- |]); [done |].
  destruct (round json_loads w max_retries (item :: failed) fd log)
    as [[[cf fd1] | e] log1] eqn:Hround.
  - apply for_items_log_prefix in Hround. apply IH in Hrun. by etrans.
  - injection Hrun as <- <-. by apply for_items_log_prefix in Hround.
Qed.

Lemma for_items_exhaust todo : ∀ cf fd log,
  Forall (λ item, max_retries ≤ item.2) todo →
  for_items json_loads w max_retries todo (cf, fd) log
  = (Returned (cf, fd ++ map exhausted_record (dict_keys todo)), log).
Proof.
  induction todo as [| [taxid retries] todo IH]; intros cf fd log Hall.
  - simpl. by rewrite app_nil_r.
  - apply Forall_cons in Hall as [Hitem Hall]. simpl in Hitem.
    cbn [for_items]. unfold M_bind, visit. rewrite decide_False by lia.
    unfold M_ret. rewrite IH by done. by rewrite <- (assoc_L (++)).
Qed.

Lemma while_failed_exhaust fuel failed fd log :
  Forall (λ item, max_retries ≤ item.2) failed →
  while_failed json_loads w (S fuel) max_retries failed fd log
  = Some (Returned (fd ++ map exhausted_record (dict_keys failed)), log).
Proof.
  intros Hall. destruct failed as [| item failed].
  - simpl. by rewrite app_nil_r.
  - cbn [while_failed]. unfold round. rewrite for_items_exhaust by done. by destruct fuel.
Qed.



End retry_loop_more.

Lemma length_filter_partition {A} (P : A → Prop) `{!∀ x, Decision (P x)} (l : list A) :
  (length (filter P l) + length (filter (λ x, ¬ P x) l) = length l)%nat.
Proof.
  induction l as [| a l IH]; [done |]. rewrite !filter_cons.
  destruct (decide (P a)); [rewrite decide_False by tauto | rewrite decide_True by done];
    simpl; lia.
Qed.

Lemma length_bounded_by_attempts (ids : list pyval) (b : nat) : ∀ log : list pyval,
  (∀ t, t ∈ log → t ∈ ids) →
  (∀ t, (attempts_of t log ≤ b)%nat) →
  (length log ≤ b * length ids)%nat.
Proof.
  induction ids as [| a ids IH]; intros log Hin Hb.
  - destruct log as [| t log]; [simpl; lia |]. specialize (Hin t). 
    exfalso. eapply not_elem_of_nil, Hin. left.
  - specialize (IH (filter (λ t, t ≠ a) log)).
    pose proof (length_filter_partition (λ t, t = a) log) as Hpart.
    pose proof (Hb a) as Ha. unfold attempts_of in Ha.
    assert (length (filter (λ t, t ≠ a) log) ≤ b * length ids)%nat as Hrest.
    { apply IH.
      - intros t Ht. apply list_elem_of_filter in Ht as [Hne Ht].
        apply Hin, elem_of_cons in Ht as [-> | Ht]; done.
      - intros t. unfold attempts_of. rewrite list_filter_filter.
        etrans; [| apply (Hb t)]. unfold attempts_of.
        rewrite <- (list_filter_filter_l (λ x, x = t ∧ x ≠ a) (λ x, x = t) log) by tauto.
        apply length_filter. }
    simpl. lia.
Qed.



(** [process_taxids] looks an identifier up at most [max_retries] times,
    never looks up an identifier it was not given, and so issues at most
    [max_retries] lookups for each distinct identifier in total. *)
Theorem lookups_are_bounded
    (json_loads : string → option pyval) (w : world) (taxids : list pyval) (max_retries : Z)
    (final_data : list pydict) (log : list pyval) :
  process_records json_loads w taxids max_retries = Some (Returned final_data, log) →
  (∀ t, Z.of_nat (attempts_of t log) ≤ Z.max 0 max_retries)
  ∧ (∀ t, t ∉ taxids → attempts_of t log = 0%nat)
  ∧ Z.of_nat (length log) ≤ Z.max 0 max_retries * Z.of_nat (length (unique taxids)).
Proof.
  intros Hrun.
  pose proof (process_records_sound _ _ _ _ _ _ Hrun) as (_ & _ & _ & Hlog).
  assert (∀ t, t ∉ taxids → attempts_of t log = 0%nat) as Hout.
  { intros t Ht. destruct (attempts_of t log) as [| n] eqn:Hn; [done |].
    destruct Ht. apply Hlog, attempts_of_pos. lia. }
  assert (∀ t, Z.of_nat (attempts_of t log) ≤ Z.max 0 max_retries) as Hbound.
  { intros t. destruct (decide (t ∈ taxids)) as [Ht | Ht]; [| rewrite Hout by done; lia].
    destruct (record_of_taxid _ _ _ _ _ _ _ Hrun Ht) as (record & _ & Htaxid & _ & Hsett).
    unfold settled in Hsett. rewrite Htaxid in Hsett.
    destruct Hsett as [(k & info & -> & Hk & _) | (_ & -> & _)]; lia. }
  split; [done |]. split; [done |].
  pose proof (length_bounded_by_attempts (unique taxids) (Z.to_nat (Z.max 0 max_retries)) log)
    as Hlen.
  rewrite <- (Z2Nat.id (Z.max 0 max_retries)) by lia. rewrite <- Nat2Z.inj_mul.
  apply Nat2Z.inj_le, Hlen.
  - intros t Ht. by apply elem_of_unique, Hlog.
  - intros t. specialize (Hbound t). lia.
Qed.

Lemma lookups_are_bounded_witness :
  (∀ t, Z.of_nat (attempts_of t [PInt 0; PInt 0; PInt 0]) ≤ Z.max 0 3)
  ∧ (∀ t, t ∉ [PInt 0] → attempts_of t [PInt 0; PInt 0; PInt 0] = 0%nat)
  ∧ Z.of_nat (length [PInt 0; PInt 0; PInt 0])
    ≤ Z.max 0 3 * Z.of_nat (length (unique [PInt 0])).
Proof.
  apply (lookups_are_bounded sample_loads world_nonzero_exit [PInt 0] 3
           [exhausted_record (PInt 0)]).
  reflexivity.
Defined.

(** With [max_retries] zero or negative no lookup is issued: every
    distinct identifier gets the record of line 129, in order of first
    appearance. *)
Theorem no_retries_means_no_lookup
    (json_loads : string → option pyval) (w : world) (taxids : list pyval) (max_retries : Z) :
  max_retries ≤ 0 →
  process_records json_loads w taxids max_retries
  = Some (Returned (map exhausted_record (unique taxids)), []).
Proof.
  intros Hmr. unfold process_records, round_budget. rewrite initial_failed_unique.
  rewrite while_failed_exhaust.
  - by rewrite dict_keys_zero.
  - apply Forall_forall. intros item Hitem.
    apply list_elem_of_fmap in Hitem as (t & -> & _). simpl. lia.
Qed.

Lemma no_retries_means_no_lookup_witness :
  process_records sample_loads world_ok [PInt 9606; PInt 9606; PInt 10090] 0
  = Some (Returned (map exhausted_record (unique [PInt 9606; PInt 9606; PInt 10090])), []).
Proof.
  apply (no_retries_means_no_lookup sample_loads world_ok [PInt 9606; PInt 9606; PInt 10090] 0).
  lia.
Defined.

(** For identifiers that are integers or strings, the dict the loop starts
    from holds each distinct identifier once, in order of first
    appearance, with no retry; so a list with repeated identifiers is
    processed like the list of its distinct identifiers. *)
Theorem repeated_identifiers_collapse
    (json_loads : string → option pyval) (w : world) (taxids : list pyval) (max_retries : Z) :
  Forall plain_identifier taxids →
  initial_failed taxids = map (λ t, (t, 0)) (unique taxids)
  ∧ process_records json_loads w taxids max_retries
    = process_records json_loads w (unique taxids) max_retries.
Proof.
  intros _. split; [apply initial_failed_unique |].
  unfold process_records. by rewrite !initial_failed_unique, unique_idemp.
Qed.

Lemma repeated_identifiers_collapse_witness :
  initial_failed [PInt 9606; PStr "Homo sapiens"; PInt 9606]
  = map (λ t, (t, 0)) (unique [PInt 9606; PStr "Homo sapiens"; PInt 9606])
  ∧ process_records sample_loads world_flaky [PInt 9606; PStr "Homo sapiens"; PInt 9606] 3
    = process_records sample_loads world_flaky
        (unique [PInt 9606; PStr "Homo sapiens"; PInt 9606]) 3.
Proof.
  apply (repeated_identifiers_collapse sample_loads world_flaky
           [PInt 9606; PStr "Homo sapiens"; PInt 9606] 3).
  by repeat constructor.
Defined.

(** The record of an identifier and the number of its lookups depend on
    the answers to the lookups of that identifier only: not on the other
    identifiers of the list, nor on the answers they get. *)
Theorem record_depends_on_own_lookups_only
    (json_loads : string → option pyval) (w1 w2 : world) (taxids1 taxids2 : list pyval)
    (max_retries : Z) (taxid : pyval) (final_data1 final_data2 : list pydict)
    (log1 log2 : list pyval) (record1 record2 : pydict) :
  process_records json_loads w1 taxids1 max_retries = Some (Returned final_data1, log1) →
  process_records json_loads w2 taxids2 max_retries = Some (Returned final_data2, log2) →
  (∀ k, fetch_result json_loads w1 taxid k = fetch_result json_loads w2 taxid k) →
  record1 ∈ final_data1 → taxid_of record1 = taxid →
  record2 ∈ final_data2 → taxid_of record2 = taxid →
  record1 = record2 ∧ attempts_of taxid log1 = attempts_of taxid log2.
Proof.
  intros Hrun1 Hrun2 Hsame Hin1 Htaxid1 Hin2 Htaxid2.
  apply process_records_sound in Hrun1 as (_ & _ & Hsett1 & _).
  apply process_records_sound in Hrun2 as (_ & _ & Hsett2 & _).
  rewrite Forall_forall in Hsett1, Hsett2.
  specialize (Hsett1 _ Hin1). specialize (Hsett2 _ Hin2).
  unfold settled in Hsett1, Hsett2. rewrite Htaxid1 in Hsett1. rewrite Htaxid2 in Hsett2.
  destruct Hsett1 as [(k1 & info1 & Ha1 & Hk1 & Hf1 & Hok1 & ->) | (-> & Ha1 & Hf1)];
    destruct Hsett2 as [(k2 & info2 & Ha2 & Hk2 & Hf2 & Hok2 & ->) | (-> & Ha2 & Hf2)].
  - assert (k1 = k2) as ->.
    { destruct (Nat.lt_trichotomy k1 k2) as [Hlt | [-> | Hgt]]; [| done |].
      - specialize (Hf2 k1 Hlt). rewrite <- Hsame in Hf2. congruence.
      - specialize (Hf1 k2 Hgt). rewrite Hsame in Hf1. congruence. }
    rewrite Hsame, Hok2 in Hok1. injection Hok1 as ->. split; congruence.
  - specialize (Hf2 k1). rewrite <- Hsame, Hok1 in Hf2. by discriminate Hf2; lia.
  - specialize (Hf1 k2). rewrite Hsame, Hok2 in Hf1. by discriminate Hf1; lia.
  - split; [done | lia].
Qed.

Lemma record_depends_on_own_lookups_only_witness :
  dict_set human_record "TaxID" (PInt 9606) = dict_set human_record "TaxID" (PInt 9606)
  ∧ attempts_of (PInt 9606) [PInt 9606; PInt 9606]
    = attempts_of (PInt 9606) [PInt 9606; PInt 10090; PInt 9606; PInt 10090].
Proof.
  apply (record_depends_on_own_lookups_only sample_loads world_flaky world_flaky
           [PInt 9606] [PInt 9606; PInt 10090] 3 (PInt 9606)
           [dict_set human_record "TaxID" (PInt 9606)]
           [dict_set human_record "TaxID" (PInt 9606);
            dict_set human_record "TaxID" (PInt 10090)]
           [PInt 9606; PInt 9606] [PInt 9606; PInt 10090; PInt 9606; PInt 10090]);
    try reflexivity.
  - left.
  - left.
Defined.



(** With [max_retries] positive, the first lookups issued are those of the
    distinct identifiers in order of first appearance, one each: a retry
    starts only after every identifier has been tried. *)
Theorem first_round_follows_the_input
    (json_loads : string → option pyval) (w : world) (taxids : list pyval) (max_retries : Z)
    (final_data : list pydict) (log : list pyval) :
  0 < max_retries →
  process_records json_loads w taxids max_retries = Some (Returned final_data, log) →
  unique taxids `prefix_of` log.
Proof.
  intros Hmr Hrun. unfold process_records, round_budget in Hrun.
  rewrite initial_failed_unique in Hrun.
  destruct (map (λ t, (t, 0)) (unique taxids)) as [| item items] eqn:Hitems.
  - destruct (unique taxids); [apply prefix_nil | done].
  - cbn [while_failed] in Hrun. rewrite <- Hitems in Hrun.
    destruct (round json_loads w max_retries (map (λ t, (t, 0)) (unique taxids)) [] [])
      as [[[cf fd1] | e] log1] eqn:Hround; [| done].
    apply while_failed_log_prefix in Hrun. etrans; [| exact Hrun].
    apply for_items_log in Hround as ->. rewrite app_nil_l, filter_all.
    + by rewrite dict_keys_zero.
    + intros item' Hitem'. apply list_elem_of_fmap in Hitem' as (t & -> & _). done.
Qed.

Lemma first_round_follows_the_input_witness :
  unique [PInt 9606; PInt 10090; PInt 9606]
  `prefix_of` [PInt 9606; PInt 10090; PInt 9606; PInt 10090].
Proof.
  apply (first_round_follows_the_input sample_loads world_flaky
           [PInt 9606; PInt 10090; PInt 9606] 3
           [dict_set human_record "TaxID" (PInt 9606);
            dict_set human_record "TaxID" (PInt 10090)]).
  - lia.
  - reflexivity.
Defined.

(** ** More on [main] *)

Lemma main_SysExit
    (json_loads : string → option pyval) (w : world) (df_input : DataFrame)
    (code : Z) (log : list pyval) :
  main json_loads w df_input = Some (SysExit code, log)
  ↔ code = 1 ∧ log = []
    ∧ ("TaxID" ∉ columns df_input
       ∨ ∃ taxid_column,
           column df_input "TaxID" = Some taxid_column
           ∧ Forall (λ t, isna t = true) taxid_column).
Proof.
  unfold main.
  destruct (column df_input "TaxID") as [taxid_column |] eqn:Hcol.
  - assert ("TaxID" ∈ columns df_input) as Hin.
    { unfold column in Hcol.
      destruct (col_index "TaxID" (columns df_input)) as [i |] eqn:Hi; [| done].
      apply dec_stable. intros Hnot. apply col_index_None in Hnot. congruence. }
    destruct (unique (dropna taxid_column)) as [| t U] eqn:HU.
    + apply unique_nil, dropna_nil in HU. split.
      * intros [= <- <-]. do 2 (split; [done |]). right. by exists taxid_column.
      * by intros (-> & -> & _).
    + assert (¬ Forall (λ t, isna t = true) taxid_column) as Hsome.
      { intros Hall. apply dropna_nil, unique_nil in Hall. congruence. }
      rewrite <- HU. split.
      * unfold process_taxids.
        destruct (process_records json_loads w (unique (dropna taxid_column)) 3)
          as [[[fd | e] log1] |]; [| done..].
        by destruct (merge_left df_input (DataFrame_of_records fd) "TaxID").
      * intros (_ & _ & [Hno | (col' & [= <-] & Hall)]); done.
  - split.
    + intros [= <- <-]. do 2 (split; [done |]). left.
      apply col_index_None. unfold column in Hcol.
      by destruct (col_index "TaxID" (columns df_input)).
    + by intros (-> & -> & _).
Qed.

Lemma main_Written_log json_loads w df_input out log :
  main json_loads w df_input = Some (Written out, log) → log ≠ [].
Proof.
  unfold main. destruct (column df_input "TaxID") as [taxid_column |]; [| done].
  destruct (unique (dropna taxid_column)) as [| t U] eqn:HU; [done |].
  rewrite <- HU. unfold process_taxids.
  destruct (process_records json_loads w (unique (dropna taxid_column)) 3)
    as [[[fd | e] log1] |] eqn:Hrun; [| done..].
  destruct (merge_left df_input (DataFrame_of_records fd) "TaxID"); [| done].
  intros [= _ <-] ->. destruct (main_lookups _ _ _ _ _ Hrun) as [Hlog _].
  apply (not_elem_of_nil t), Hlog. rewrite HU. left.
Qed.

(** On an input without the label of a lineage column, [main] calls
    [sys.exit(1)] in these cases and no other: the input cannot be read,
    the table has no [TaxID] column, or no row has an identifier, each
    time before any lookup; or the output cannot be written, after the
    lookups. *)
Theorem main_exits_with_status_1_exactly
    (json_loads : string → option pyval) (w : world) (read_csv : option DataFrame)
    (to_csv_raises : bool) (code : Z) (log : list pyval) :
  (∀ df_input, read_csv = Some df_input → no_lineage_label df_input) →
  main_with_files json_loads w read_csv to_csv_raises = Some (SysExit code, log)
  ↔ code = 1
    ∧ ((log = []
        ∧ (read_csv = None
           ∨ ∃ df_input,
               read_csv = Some df_input
               ∧ ("TaxID" ∉ columns df_input
                  ∨ ∃ taxid_column,
                      column df_input "TaxID" = Some taxid_column
                      ∧ Forall (λ t, isna t = true) taxid_column)))
       ∨ (log ≠ [] ∧ to_csv_raises = true
          ∧ ∃ df_input df_output,
              read_csv = Some df_input
              ∧ main json_loads w df_input = Some (Written df_output, log))).
Proof.
  intros _. unfold main_with_files. destruct read_csv as [df_input |].
  2:{ split.
      - intros [= <- <-]. split; [done |]. left. split; [done | by left].
      - intros (-> & [(-> & _) | (_ & _ & ? & ? & ? & _)]); done. }
  assert ((Some df_input = None
           ∨ ∃ df, Some df_input = Some df
               ∧ ("TaxID" ∉ columns df
                  ∨ ∃ taxid_column,
                      column df "TaxID" = Some taxid_column
                      ∧ Forall (λ t, isna t = true) taxid_column)) →
          main json_loads w df_input = Some (SysExit 1, [])) as Hearly.
  { intros [? | (df & [= <-] & Hwhy)]; [done |]. by apply main_SysExit. }
  destruct (main json_loads w df_input) as [[[c | e | df_output] log1] |] eqn:Hmain.
  - split.
    + intros [= -> ->]. apply main_SysExit in Hmain as (-> & -> & Hwhy).
      split; [done |]. left. split; [done |]. right. by exists df_input.
    + intros (-> & [(-> & Hwhy) | (_ & _ & df & out & [= <-] & Hw)]).
      * by rewrite <- (Hearly Hwhy).
      * congruence.
  - split; [done |].
    intros (_ & [(-> & Hwhy) | (_ & _ & df & out & [= <-] & Hw)]);
      [by specialize (Hearly Hwhy) | congruence].
  - pose proof (main_Written_log _ _ _ _ _ Hmain) as Hlog.
    destruct to_csv_raises; split.
    + intros [= <- <-]. split; [done |]. right. do 2 (split; [done |]).
      by exists df_input, df_output.
    + intros (-> & [(-> & Hwhy) | (_ & _ & df & out & [= <-] & Hw)]);
        [by specialize (Hearly Hwhy) | congruence].
    + done.
    + intros (_ & [(-> & Hwhy) | (_ & ? & _)]); [by specialize (Hearly Hwhy) | done].
  - split; [done |].
    intros (_ & [(-> & Hwhy) | (_ & _ & df & out & [= <-] & Hw)]);
      [by specialize (Hearly Hwhy) | congruence].
Qed.

(** When the table has a [TaxID] column with at least one identifier and
    no label of a lineage column, and no lookup lets an exception escape,
    [main] gets to [to_csv] with a table: the table is written when
    [to_csv] succeeds, and [main] exits with status 1 when it raises. *)
Theorem main_writes
    (json_loads : string → option pyval) (w : world) (df_input : DataFrame)
    (taxid_column : list pyval) (t : pyval) :
  (∀ t k, ∃ r, fetch_result json_loads w t k = Returned r) →
  no_lineage_label df_input →
  column df_input "TaxID" = Some taxid_column →
  t ∈ taxid_column → isna t = false →
  ∃ out log,
    log ≠ []
    ∧ main_with_files json_loads w (Some df_input) false = Some (Written out, log)
    ∧ main_with_files json_loads w (Some df_input) true = Some (SysExit 1, log).
Proof.
  intros Hret _ Hcol Ht Hna.
  destruct (main_hands_over json_loads w df_input taxid_column t Hret Hcol Ht Hna)
    as (out & log & Hmain).
  exists out, log. split; [by eapply main_Written_log |].
  unfold main_with_files. by rewrite Hmain.
Qed.

Lemma main_exits_with_status_1_exactly_witness :
  main_with_files sample_loads world_ok (Some all_missing_table) false = Some (SysExit 1, [])
  ∧ main_with_files sample_loads world_ok (Some gap_table) true
    = Some (SysExit 1, [PStr "Homo sapiens"]).
Proof.
  split.
  - apply (main_exits_with_status_1_exactly sample_loads world_ok (Some all_missing_table)
             false 1 []).
    + intros df [= <-]. apply sample_tables_have_no_lineage_label.
    + split; [done |]. left. split; [done |]. right. exists all_missing_table.
      split; [done |]. right. exists [PNaN; PNaN]. split; [reflexivity |].
      by repeat constructor.
  - apply (main_exits_with_status_1_exactly sample_loads world_ok (Some gap_table)
             true 1 [PStr "Homo sapiens"]).
    + intros df [= <-]. apply sample_tables_have_no_lineage_label.
    + split; [done |]. right. split; [done |]. split; [done |].
      exists gap_table, gap_output. split; reflexivity.
Defined.

Lemma main_writes_witness :
  ∃ out log,
    log ≠ []
    ∧ main_with_files sample_loads world_flaky (Some gap_table) false = Some (Written out, log)
    ∧ main_with_files sample_loads world_flaky (Some gap_table) true = Some (SysExit 1, log).
Proof.
  apply (main_writes sample_loads world_flaky gap_table [PStr "Homo sapiens"; PNaN]
           (PStr "Homo sapiens")).
  - intros t [| k]; by eexists.
  - apply sample_tables_have_no_lineage_label.
  - reflexivity.
  - left.
  - reflexivity.
Defined.

(** Where the first successful lookup of a row's identifier returned a
    string for a lineage column, as it does for the names, the cell of
    that row and column in the output is that string. *)
Theorem lineage_cells_come_from_the_lookup
    (json_loads : string → option pyval) (w : world) (df_input out : DataFrame)
    (taxid_column log : list pyval) (n : nat) (row : list pyval) (t : pyval)
    (k : nat) (info : pydict) (p : nat) (c s : string) :
  well_formed df_input →
  no_lineage_label df_input →
  column df_input "TaxID" = Some taxid_column →
  main json_loads w df_input = Some (Written out, log) →
  rows df_input !! n = Some row →
  taxid_column !! n = Some t →
  isna t = false →
  (∀ j info', (j < k)%nat → fetch_result json_loads w t j ≠ Returned (Some info')) →
  fetch_result json_loads w t k = Returned (Some info) →
  (k < 3)%nat →
  columns out !! (length (columns df_input) + p)%nat = Some c →
  dict_get info c = Some (PStr s) →
  ∃ cells,
    rows out !! n = Some (row ++ cells)
    ∧ length cells = (length (columns out) - length (columns df_input))%nat
    ∧ cells !! p = Some (PStr s).
Proof.
  intros Hwf Hfresh Hcol Hmain Hrow Ht Hna Hearlier Hok Hk Hc Hs.
  destruct (main_row_of_record _ _ _ _ _ _ Hwf Hfresh Hcol Hmain)
    as (fd & Hrun & Hkey & _ & Hcells).
  assert (t ∈ unique (dropna taxid_column)) as HU.
  { rewrite elem_of_unique, elem_of_dropna. split; [| done]. by eapply list_elem_of_lookup_2. }
  destruct (record_of_taxid _ _ _ _ _ _ _ Hrun HU) as (record & Hrecord & Htaxid & _ & Hsett).
  rewrite <- Htaxid in Ht. eexists. split; [exact (Hcells n row record Hrow Ht Hrecord) |].
  rewrite length_map, length_drop. split; [done |].
  rewrite <- lookup_drop in Hc.
  change (map ?f ?l) with (f <$> l). rewrite list_lookup_fmap, Hc. simpl.
  unfold settled in Hsett. rewrite Htaxid in Hsett.
  destruct Hsett as [(k' & info' & _ & _ & Hfails & Hok' & ->) | (_ & Hattempts & Hfails)].
  - assert (k' = k) as ->.
    { destruct (Nat.lt_trichotomy k' k) as [Hlt | [-> | Hgt]]; [| done |].
      - by destruct (Hearlier k' info' Hlt).
      - rewrite (Hfails k Hgt) in Hok. done. }
    rewrite Hok in Hok'. injection Hok' as <-.
    rewrite dict_get_set_ne, Hs; [done |].
    intros <-. apply Hkey. by eapply list_elem_of_lookup_2.
  - rewrite Hfails in Hok by lia. done.
Qed.

(** A row whose identifier fails at each of its three lookups has the
    string ['None'] in every lineage column of the output, the superkingdom
    columns included when the table has them. *)
Theorem failed_identifier_rows_are_all_None
    (json_loads : string → option pyval) (w : world) (df_input out : DataFrame)
    (taxid_column log : list pyval) (n : nat) (row : list pyval) (t : pyval) :
  well_formed df_input →
  no_lineage_label df_input →
  column df_input "TaxID" = Some taxid_column →
  main json_loads w df_input = Some (Written out, log) →
  rows df_input !! n = Some row →
  taxid_column !! n = Some t →
  isna t = false →
  (∀ k, (k < 3)%nat → fetch_result json_loads w t k = Returned None) →
  rows out !! n
  = Some (row ++ replicate (length (columns out) - length (columns df_input)) (PStr "None")).
Proof.
  intros Hwf Hfresh Hcol Hmain Hrow Ht Hna Hfail.
  destruct (main_row_of_record _ _ _ _ _ _ Hwf Hfresh Hcol Hmain)
    as (fd & Hrun & _ & Hextra & Hcells).
  assert (t ∈ unique (dropna taxid_column)) as HU.
  { rewrite elem_of_unique, elem_of_dropna. split; [| done]. by eapply list_elem_of_lookup_2. }
  destruct (record_of_taxid _ _ _ _ _ _ _ Hrun HU) as (record & Hrecord & Htaxid & _ & Hsett).
  rewrite <- Htaxid in Ht. rewrite (Hcells n row record Hrow Ht Hrecord). do 2 f_equal.
  unfold settled in Hsett. rewrite Htaxid in Hsett.
  destruct Hsett as [(k & info & _ & Hk & _ & Hok & _) | (-> & _)].
  - rewrite Hfail in Hok by lia. done.
  - rewrite <- length_drop. clear Hcells.
    induction (drop (length (columns df_input)) (columns out)) as [| c extra IH];
      cbn [map length replicate]; [done |].
    rewrite exhausted_cell by (apply Hextra; left). f_equal.
    apply IH. intros c' Hc'. apply Hextra. by right.
Qed.

Lemma lineage_cells_come_from_the_lookup_witness :
  ∃ cells,
    rows flaky_output !! 0%nat = Some ([PInt 9606; PStr "a"] ++ cells)
    ∧ length cells = (length (columns flaky_output) - length (columns scenario_table))%nat
    ∧ cells !! 13%nat = Some (PStr "Homo").
Proof.
  apply (lineage_cells_come_from_the_lookup sample_loads world_flaky scenario_table
           flaky_output [PInt 9606; PInt 9606; PInt 10090]
           [PInt 9606; PInt 10090; PInt 9606; PInt 10090]
           0 [PInt 9606; PStr "a"] (PInt 9606) 1 human_record 13 "genus_name" "Homo");
    try reflexivity.
  - repeat constructor.
  - apply sample_tables_have_no_lineage_label.
  - intros j info' Hj. assert (j = 0%nat) as -> by lia. discriminate.
  - lia.
Defined.

Lemma mixed_table_has_no_lineage_label : no_lineage_label mixed_table.
Proof. apply sample_tables_have_no_lineage_label. Qed.

Lemma failed_identifier_rows_are_all_None_witness :
  rows mixed_output !! 1%nat
  = Some ([PInt 0; PStr "b"]
          ++ replicate (length (columns mixed_output) - length (columns mixed_table))
                       (PStr "None")).
Proof.
  apply (failed_identifier_rows_are_all_None sample_loads world_mixed mixed_table mixed_output
           [PInt 9606; PInt 0] [PInt 9606; PInt 0; PInt 0; PInt 0]
           1 [PInt 0; PStr "b"] (PInt 0)); try reflexivity.
  - repeat constructor.
  - apply mixed_table_has_no_lineage_label.
Defined.

(** The new columns of the output are the sixteen lineage columns in rank
    order as soon as one lookup succeeded, and the fourteen columns from
    kingdom to species when every lookup failed. *)
Theorem output_columns_follow_the_lookups
    (json_loads : string → option pyval) (w : world) (df_input out : DataFrame)
    (log : list pyval) :
  well_formed df_input →
  no_lineage_label df_input →
  main json_loads w df_input = Some (Written out, log) →
  ((∃ t k info,
       t ∈ log ∧ (k < 3)%nat ∧ fetch_result json_loads w t k = Returned (Some info)) →
     columns out = columns df_input ++ lineage_columns)
  ∧ ((∀ t k, t ∈ log → (k < 3)%nat → fetch_result json_loads w t k = Returned None) →
       columns out = columns df_input ++ drop 2 lineage_columns).
Proof.
  intros Hwf Hfresh Hmain.
  destruct (main_written_explicit _ _ _ _ _ Hwf Hfresh Hmain)
    as (i & j & fd & Hi & Hj & Hrun & -> & _).
  destruct (main_lookups _ _ _ _ _ Hrun) as [Hlog _].
  pose proof (process_records_sound _ _ _ _ _ _ Hrun) as (_ & Hcover & Hsett & _).
  pose proof (process_records_order _ _ _ _ _ _ Hrun) as (F & E & -> & HF & HE).
  rewrite Forall_forall in Hsett. split.
  - intros (t & k & info & Ht & Hk & Hok). f_equal.
    assert (∃ record, record ∈ F ++ E ∧ fetched_shape record) as (record & Hin & Hshape).
    { apply Hlog in Ht.
      destruct (record_of_taxid _ _ _ _ _ _ _ Hrun Ht) as (record & Hrecord & Htaxid & _ & Hs).
      exists record. split; [done |]. unfold settled in Hs. rewrite Htaxid in Hs.
      destruct Hs as [(k' & info' & _ & _ & _ & Hok' & ->) | (_ & Hattempts & Hfails)].
      - unfold fetched_shape. apply fetch_on_keys_exact in Hok'.
        rewrite dict_set_keys, Hok'. by rewrite decide_False by apply TaxID_not_lineage.
      - rewrite Hfails in Hok by lia. done. }
    destruct F as [| first F].
    { rewrite app_nil_l in Hin. rewrite Forall_forall in HE.
      destruct (HE _ Hin) as [t' ->]. by apply exhausted_not_fetched in Hshape. }
    apply Forall_cons in HF as [Hfirst HF].
    assert (columns (DataFrame_of_records ((first :: F) ++ E)) = lineage_columns ++ ["TaxID"])
      as Hcolumns.
    { rewrite <- Hfirst. apply frame_columns_head; [by apply fetched_shape_NoDup |].
      apply Forall_app. split.
      - eapply Forall_impl; [exact HF |]. intros r Hr. unfold fetched_shape in *.
        by rewrite Hr, Hfirst.
      - eapply Forall_impl; [exact HE |]. intros r [t' ->]. by apply exhausted_keys_subseteq. }
    rewrite Hcolumns in Hj |- *. vm_compute in Hj. by injection Hj as <-.
  - intros Hfail. f_equal.
    assert (Forall (λ record, ∃ t', record = exhausted_record t') (F ++ E)) as Hall.
    { apply Forall_forall. intros record Hrecord. specialize (Hsett _ Hrecord).
      destruct Hsett as [(k & info & _ & Hk & _ & Hok & _) | (-> & _)]; [| by eexists].
      rewrite Hfail in Hok; [done | | lia].
      apply Hlog, Hcover, list_elem_of_fmap. by exists record. }
    destruct (F ++ E) as [| first fd] eqn:Hfd.
    { vm_compute in Hj. done. }
    apply Forall_cons in Hall as [[t' ->] Hall].
    assert (columns (DataFrame_of_records (exhausted_record t' :: fd))
            = drop 2 lineage_columns ++ ["TaxID"]) as Hcolumns.
    { rewrite <- (exhausted_keys t'). apply frame_columns_head.
      - rewrite exhausted_keys. apply (bool_decide_unpack _). by vm_compute.
      - eapply Forall_impl; [exact Hall |]. by intros r [t'' ->]. }
    rewrite Hcolumns in Hj |- *. vm_compute in Hj. by injection Hj as <-.
Qed.

Lemma output_columns_follow_the_lookups_witness :
  columns mixed_output = columns mixed_table ++ lineage_columns
  ∧ columns failed_output = columns mixed_table ++ drop 2 lineage_columns.
Proof.
  split.
  - apply (proj1 (output_columns_follow_the_lookups sample_loads world_mixed mixed_table
                    mixed_output [PInt 9606; PInt 0; PInt 0; PInt 0]
                    ltac:(repeat constructor) mixed_table_has_no_lineage_label eq_refl)).
    exists (PInt 9606), 0%nat, human_record. split; [left |]. split; [lia | reflexivity].
  - apply (proj2 (output_columns_follow_the_lookups sample_loads world_nonzero_exit mixed_table
                    failed_output [PInt 9606; PInt 0; PInt 9606; PInt 0; PInt 9606; PInt 0]
                    ltac:(repeat constructor) mixed_table_has_no_lineage_label eq_refl)).
    intros t k _ _. reflexivity.
Defined.
